(** * OCR record service: a shallow embedding of [backend/index.js]

    The server is an Express application with four routes over one MongoDB
    collection ([Record]) and one storage directory ([uploads/]).  The
    embedding keeps the two pieces of state the handlers touch -- the set of
    files in the working directory and the collection -- in a [World] and
    writes every handler as a function on it.  What the handlers delegate
    to libraries (multer, sharp, tesseract.js, mongoose, the regular
    expression engines) is modelled next to the handler that calls it, with
    the library behaviour it relies on stated in the comment. *)

From Stdlib Require Import String Ascii List NArith ZArith Lia Bool DecimalString.
From Stdlib Require DecimalN DecimalPos.
From stdpp Require Import base option gmap strings list fin_maps sorting.

Local Open Scope N_scope.

(** ** Strings

    A JavaScript string is modelled as a Rocq [string], one [ascii] per
    character: the model speaks about ASCII text.  Case mapping and
    whitespace are the ASCII parts of [toLowerCase] and [trim]. *)

Module Str.

Definition chars (s : string) : list ascii := list_ascii_of_string s.
Definition of_chars (cs : list ascii) : string := string_of_list_ascii cs.

Definition code (c : ascii) : N := N_of_ascii c.

(** [String.prototype.toLowerCase], on one character. *)
Definition lower_char (c : ascii) : ascii :=
  if (65 <=? code c) && (code c <=? 90) then ascii_of_N (code c + 32) else c.

Definition lower (cs : list ascii) : list ascii := map lower_char cs.

Definition toLowerCase (s : string) : string := of_chars (lower (chars s)).

(** White space removed by [String.prototype.trim]: TAB, LF, VT, FF, CR
    and SPACE. *)
Definition is_space (c : ascii) : bool :=
  ((9 <=? code c) && (code c <=? 13)) || (code c =? 32).

Fixpoint trim_start (cs : list ascii) : list ascii :=
  match cs with
  | c :: cs' => if is_space c then trim_start cs' else cs
  | [] => []
  end.

Definition trim_chars (cs : list ascii) : list ascii :=
  rev (trim_start (rev (trim_start cs))).

Definition trim (s : string) : string := of_chars (trim_chars (chars s)).

(** Number to string conversion of [x + '-' + y] and of template
    literals, for the non-negative integers the handlers print. *)
Definition decimal (n : N) : string := NilZero.string_of_uint (N.to_uint n).

Definition is_empty (s : string) : bool :=
  match s with EmptyString => true | String _ _ => false end.

(** [s] occurs in [t] as a contiguous run of characters. *)
Definition infix_of (s t : list ascii) : Prop :=
  ∃ pre post, t = pre ++ s ++ post.

End Str.

(** ** Regular expressions

    Two regular expressions are evaluated by the server: the literal
    [/jpeg|jpg|png|gif|bmp|tiff|webp/] of the upload filter (JavaScript
    engine, case sensitive) and the [search] query parameter, which the list
    route hands to MongoDB as [{ $regex: search, $options: 'i' }] (PCRE,
    case insensitive on ASCII letters).

    The embedding covers the part of the pattern language on which both
    engines agree and which needs no backtracking: alternatives separated by
    [|], each a sequence of literal characters and [.].  A quantifier with
    nothing before it is a syntax error in both engines.  Every other use of
    a special character is outside the fragment and reported as
    [Unsupported]. *)

Module Regex.

Inductive atom : Type :=
  | Lit (c : ascii)
  | Dot.

Definition branch : Type := list atom.

Inductive compiled : Type :=
  | Pattern (alts : list branch)
  | Invalid       (* the engine rejects the pattern *)
  | Unsupported.  (* outside the embedded fragment *)

Definition is_bar (c : ascii) : bool := Str.code c =? 124.
Definition is_dot (c : ascii) : bool := Str.code c =? 46.

(** [*], [+] and [?]. *)
Definition is_quantifier (c : ascii) : bool :=
  (Str.code c =? 42) || (Str.code c =? 43) || (Str.code c =? 63).

(** The remaining special characters: [$ ( ) [ \ ] ^ { }]. *)
Definition is_other_special (c : ascii) : bool :=
  existsb (N.eqb (Str.code c)) [36; 40; 41; 91; 92; 93; 94; 123; 125].

Definition is_special (c : ascii) : bool :=
  is_bar c || is_dot c || is_quantifier c || is_other_special c.


(** Cut the pattern at every [|]. *)
Fixpoint split_bar (cs : list ascii) : list (list ascii) :=
  match cs with
  | [] => [[]]
  | c :: cs' =>
      if is_bar c then [] :: split_bar cs'
      else match split_bar cs' with
           | b :: bs => (c :: b) :: bs
           | [] => [[c]]
           end
  end.

Fixpoint parse_atoms (cs : list ascii) : option branch :=
  match cs with
  | [] => Some []
  | c :: cs' =>
      if is_dot c then cons Dot <$> parse_atoms cs'
      else if is_special c then None
      else cons (Lit c) <$> parse_atoms cs'
  end.

Inductive parsed_branch : Type :=
  | BOk (b : branch)
  | BInvalid
  | BUnsupported.

Definition parse_branch (cs : list ascii) : parsed_branch :=
  match cs with
  | c :: _ =>
      if is_quantifier c then BInvalid
      else match parse_atoms cs with Some b => BOk b | None => BUnsupported end
  | [] => BOk []
  end.

(** The first branch that is not in the fragment decides. *)
Fixpoint join_branches (bs : list parsed_branch) : compiled :=
  match bs with
  | [] => Pattern []
  | BOk b :: bs' =>
      match join_branches bs' with
      | Pattern alts => Pattern (b :: alts)
      | other => other
      end
  | BInvalid :: _ => Invalid
  | BUnsupported :: _ => Unsupported
  end.

Definition compile (pattern : string) : compiled :=
  join_branches (map parse_branch (split_bar (Str.chars pattern))).

(** [ci] is the [i] flag, which folds the ASCII letters.  [.] matches
    every character but the line feed (PCRE; the expression of the upload
    filter has no dot in it). *)
Definition atom_matches (ci : bool) (a : atom) (c : ascii) : bool :=
  match a with
  | Dot => negb (Str.code c =? 10)
  | Lit x =>
      if ci then Ascii.eqb (Str.lower_char x) (Str.lower_char c)
      else Ascii.eqb x c
  end.

(** The branch matches a prefix of the subject. *)
Fixpoint match_here (ci : bool) (b : branch) (s : list ascii) : bool :=
  match b, s with
  | [], _ => true
  | a :: b', c :: s' => atom_matches ci a c && match_here ci b' s'
  | _ :: _, [] => false
  end.

(** An unanchored pattern is tried at every position of the subject. *)
Fixpoint match_anywhere (ci : bool) (b : branch) (s : list ascii) : bool :=
  match_here ci b s ||
  match s with
  | [] => false
  | _ :: s' => match_anywhere ci b s'
  end.

(** [RegExp.prototype.test] without the [g] flag; also the [$regex] query
    operator on one field value. *)
Definition test (ci : bool) (alts : list branch) (subject : string) : bool :=
  existsb (fun b => match_anywhere ci b (Str.chars subject)) alts.

End Regex.

(** ** [path.extname]

    Node's POSIX [path.extname], transcribed with its loop counter and flags:
    the path is scanned from its last character towards the first, trailing
    slashes are skipped, and the scan stops at the slash that starts the last
    path component. *)

Module Path.

Record scan : Type := Scan {
  startDot : Z;
  startPart : Z;
  end_ : Z;
  matchedSlash : bool;
  preDotState : Z
}.

Definition is_slash (c : ascii) : bool := Str.code c =? 47.

Local Open Scope Z_scope.

Definition scan_init : scan := Scan (-1) 0 (-1) true 0.

Fixpoint extname_loop (rev_path : list ascii) (i : Z) (st : scan) : scan :=
  match rev_path with
  | [] => st
  | c :: rest =>
      if is_slash c then
        if negb (matchedSlash st)
        then Scan (startDot st) (i + 1) (end_ st) (matchedSlash st) (preDotState st)
        else extname_loop rest (i - 1) st
      else
        let st1 :=
          if end_ st =? -1
          then Scan (startDot st) (startPart st) (i + 1) false (preDotState st)
          else st in
        let st2 :=
          if Regex.is_dot c then
            if startDot st1 =? -1
            then Scan i (startPart st1) (end_ st1) (matchedSlash st1) (preDotState st1)
            else if negb (preDotState st1 =? 1)
            then Scan (startDot st1) (startPart st1) (end_ st1) (matchedSlash st1) 1
            else st1
          else if negb (startDot st1 =? -1)
          then Scan (startDot st1) (startPart st1) (end_ st1) (matchedSlash st1) (-1)
          else st1 in
        extname_loop rest (i - 1) st2
  end.

Definition slice (cs : list ascii) (from to : Z) : list ascii :=
  take (Z.to_nat (to - from)) (drop (Z.to_nat from) cs).

Definition extname (path : string) : string :=
  let cs := Str.chars path in
  let st := extname_loop (rev cs) (Z.of_nat (length cs) - 1) scan_init in
  if (startDot st =? -1) || (end_ st =? -1) || (preDotState st =? 0) ||
     ((preDotState st =? 1) && (startDot st =? end_ st - 1) &&
      (startDot st =? startPart st + 1))
  then EmptyString
  else Str.of_chars (slice cs (startDot st) (end_ st)).

End Path.

(** ** Data model *)

(** A MongoDB [ObjectId] is a 96-bit number; a route parameter names one by
    24 hexadecimal digits. *)
Definition ObjectId : Type := N.

(** A document of the [Record] model, with the four paths of
    [recordSchema]; its [_id] is the key under which the collection holds
    it. *)
Record RecordDocument : Type := mkRecord {
  imageUrl : string;
  extractedText : string;
  language : string;
  createdAt : N   (* milliseconds since the epoch, as [Date.now()] *)
}.

(** A document as a response carries it: [_id] and the schema paths. *)
Definition Doc : Type := ObjectId * RecordDocument.

(** The state the handlers read and write: the files that exist, by path
    relative to the server's working directory, and the collection. *)
Record World : Type := mkWorld {
  files : gset string;
  collection : gmap ObjectId RecordDocument
}.

(** What a [throw] or a rejected promise carries.  The handlers only read
    [error.message] and, in the last middleware, the class and [code]. *)
Inductive Thrown : Type :=
  | PlainError (message : string)     (* [new Error(message)] *)
  | MulterError (code : string)       (* [multer.MulterError] *)
  | ValidationError (path : string)   (* mongoose: a required path is missing *)
  | CastError (value : string)        (* mongoose: Cast to ObjectId failed *)
  | DuplicateKey (id : ObjectId)      (* MongoDB E11000 *)
  | RegexError (pattern : string).    (* MongoDB: Regular expression is invalid *)

Inductive outcome (A : Type) : Type :=
  | Ok (a : A)
  | Throw (e : Thrown).
Arguments Ok {A} a.
Arguments Throw {A} e.

(** JSON bodies; [success: true] is the constructor's tag, [details] holds
    the thrown value whose [message] the handler prints. *)
Inductive Body : Type :=
  | UploadSaved (message : string) (record : Doc)
  | RecordList (records : list Doc) (count : nat)
  | RecordFound (record : Doc)
  | Deleted (message : string)
  | Failure (error : string) (details : option Thrown).

Record Response : Type := mkResponse {
  status : N;
  body : Body
}.

(** Statements that read or write the world and may throw. *)
Definition Eff (A : Type) : Type := World → World * outcome A.

#[export] Instance Eff_ret : MRet Eff := λ A a w, (w, Ok a).

#[export] Instance Eff_bind : MBind Eff := λ A B f m w,
  match m w with
  | (w', Ok a) => f a w'
  | (w', Throw e) => (w', Throw e)
  end.

Definition throw {A : Type} (e : Thrown) : Eff A := λ w, (w, Throw e).

Definition lift {A : Type} (o : outcome A) : Eff A := λ w, (w, o).

(** [try { body } catch (error) { handler }] *)
Definition try_catch {A : Type} (body : Eff A) (handler : Thrown → Eff A) : Eff A :=
  λ w, match body w with
       | (w', Ok a) => (w', Ok a)
       | (w', Throw e) => handler e w'
       end.

(** *** File system *)

Module Fs.

Definition existsSync (path : string) : Eff bool :=
  λ w, (w, Ok (bool_decide (path ∈ files w))).

(** Called only under an [existsSync] guard, where it cannot fail. *)
Definition unlinkSync (path : string) : Eff unit :=
  λ w, (mkWorld (files w ∖ {[path]}) (collection w), Ok ()).

(** A library call that creates or overwrites [path]. *)
Definition writeFile (path : string) : Eff unit :=
  λ w, (mkWorld ({[path]} ∪ files w) (collection w), Ok ()).

(** [if (fs.existsSync(p)) fs.unlinkSync(p);] *)
Definition unlinkIfExists (path : string) : Eff unit :=
  present ← existsSync path;
  if present : bool then unlinkSync path else mret ().

End Fs.

(** ** Requests and the outside world *)

(** The file part of a multipart body as multer sees it before storing it:
    the client-declared name and content type, and the number of bytes that
    follow. *)
Record FilePart : Type := mkFilePart {
  originalname : string;
  mimetype : string;
  size : N
}.

(** [POST /api/upload]: the part in the [image] field, when there is one,
    and the [language] text field, when there is one. *)
Record UploadRequest : Type := mkUploadRequest {
  image : option FilePart;
  body_language : option string
}.

(** What one upload request observes from outside the server: the clock at
    the three places that read it, the random number of the file name, the
    identifier the driver generates, and how the two library calls end. *)
Record Env : Type := mkEnv {
  filename_now : N;                   (* [Date.now()] in [storage.filename] *)
  filename_random : N;                (* [Math.round(Math.random() * 1E9)] *)
  processed_now : N;                  (* [Date.now()] in [processedPath] *)
  sharp_toFile : outcome unit;        (* [sharp(..)...toFile(..)] *)
  tesseract_recognize : outcome string;  (* [Tesseract.recognize(..)], its [data.text] *)
  created_now : N;                    (* [Date.now], default of [createdAt] *)
  new_id : ObjectId                   (* [_id] given to [new Record(..)] *)
}.

(** [req.file] after [upload.single('image')]. *)
Record StoredFile : Type := mkStoredFile {
  filename : string;
  path : string
}.

(** ** multer: [storage] and [upload] *)

Module Multer.

Definition uploadsDir : string := "uploads".

(** [storage.destination] *)
Definition destination : string := "uploads/".

(** [storage.filename]; [file.fieldname] is [image] for the one field
    [upload.single('image')] admits. *)
Definition storage_filename (env : Env) (file : FilePart) : string :=
  let uniqueSuffix :=
    Str.decimal (filename_now env) +:+ "-" +:+ Str.decimal (filename_random env) in
  "image" +:+ "-" +:+ uniqueSuffix +:+ Path.extname (originalname file).

Definition allowedTypes : Regex.compiled :=
  Regex.compile "jpeg|jpg|png|gif|bmp|tiff|webp".

(** [allowedTypes.test(s)] *)
Definition allowedTypes_test (s : string) : bool :=
  match allowedTypes with
  | Regex.Pattern alts => Regex.test false alts s
  | _ => false
  end.

(** [fileFilter]: [cb(null, true)] or [cb(new Error(..))]. *)
Definition fileFilter (file : FilePart) : outcome bool :=
  let extname := allowedTypes_test (Str.toLowerCase (Path.extname (originalname file))) in
  let mimetype := allowedTypes_test (mimetype file) in
  if mimetype && extname then Ok true
  else Throw (PlainError "Only image files are allowed!").

(** [limits.fileSize] *)
Definition fileSize : N := 10 * 1024 * 1024.

(** [upload.single('image')].  multer skips a part without a file name,
    asks [fileFilter] before it stores anything, then streams the part to
    [destination + filename]; when the stream goes past [limits.fileSize]
    it removes what it stored and fails with [LIMIT_FILE_SIZE]. *)
Definition single (env : Env) (part : option FilePart) : Eff (option StoredFile) :=
  match part with
  | None => mret None
  | Some file =>
      if Str.is_empty (originalname file) then mret None
      else
        included ← lift (fileFilter file);
        if included : bool then
          let name := storage_filename env file in
          let stored := mkStoredFile name (destination +:+ name) in
          _ ← Fs.writeFile (path stored);
          if fileSize <? size file then
            _ ← Fs.unlinkSync (path stored);
            throw (MulterError "LIMIT_FILE_SIZE")
          else mret (Some stored)
        else mret None
  end.

End Multer.

(** ** mongoose: the [Record] model *)

Module RecordModel.

(** *** Casting a route parameter to an [ObjectId] *)

Definition hex_digit (c : ascii) : option N :=
  let n := Str.code c in
  if (48 <=? n) && (n <=? 57) then Some (n - 48)
  else if (97 <=? n) && (n <=? 102) then Some (n - 87)
  else if (65 <=? n) && (n <=? 70) then Some (n - 55)
  else None.

Fixpoint hex_value (acc : N) (cs : list ascii) : option N :=
  match cs with
  | [] => Some acc
  | c :: cs' =>
      match hex_digit c with
      | Some d => hex_value (16 * acc + d) cs'
      | None => None
      end
  end.

(** A string names an [ObjectId] when it is 24 hexadecimal digits; any
    other string makes the query fail with a [CastError].  (Drivers before
    bson 5 also take any string of 12 characters as the 12 bytes of an
    identifier; the embedding follows the current driver.) *)
Definition castObjectId (id : string) : option ObjectId :=
  let cs := Str.chars id in
  if Nat.eqb (length cs) 24 then hex_value 0 cs else None.

(** *** Validation and [save] *)

(** The [required] validator of a [String] path fails on [undefined],
    [null] and the empty string. *)
Definition required (path : string) (value : string) : outcome unit :=
  if Str.is_empty value then Throw (ValidationError path) else Ok ().

(** [recordSchema] on a document whose three string paths were given to the
    constructor; [createdAt] has taken its default. *)
Definition validate (doc : RecordDocument) : Eff unit :=
  _ ← lift (required "imageUrl" (imageUrl doc));
  lift (required "extractedText" (extractedText doc)).

Definition insertOne (id : ObjectId) (doc : RecordDocument) : Eff unit :=
  λ w, match collection w !! id with
       | Some _ => (w, Throw (DuplicateKey id))
       | None => (mkWorld (files w) (<[id := doc]> (collection w)), Ok ())
       end.

(** [newRecord.save()] *)
Definition save (id : ObjectId) (doc : RecordDocument) : Eff Doc :=
  _ ← validate doc;
  _ ← insertOne id doc;
  mret (id, doc).

(** *** Queries *)

Inductive Query : Type :=
  | MatchAll                                   (* [{}] *)
  | ExtractedTextRegex (pattern options : string).
      (* [{ extractedText: { $regex: pattern, $options: options } }] *)

(** [.sort({ createdAt: -1 })]: newest first, by insertion into the sorted
    result. *)
Fixpoint insert_desc (d : Doc) (ds : list Doc) : list Doc :=
  match ds with
  | [] => [d]
  | d' :: ds' =>
      if createdAt d'.2 <? createdAt d.2 then d :: ds
      else d' :: insert_desc d ds'
  end.

Fixpoint sort_createdAt_desc (ds : list Doc) : list Doc :=
  match ds with
  | [] => []
  | d :: ds' => insert_desc d (sort_createdAt_desc ds')
  end.

(** The documents of the collection, in the order the store scans them. *)
Definition documents (w : World) : list Doc := map_to_list (collection w).

(** [Record.find(query).sort({ createdAt: -1 })].  [None]: the pattern is
    outside the embedded fragment of the pattern language, and the model
    does not say what the query returns. *)
Definition find_sorted (query : Query) (w : World) : option (outcome (list Doc)) :=
  match query with
  | MatchAll => Some (Ok (sort_createdAt_desc (documents w)))
  | ExtractedTextRegex pattern options =>
      match Regex.compile pattern with
      | Regex.Pattern alts =>
          let ci := String.eqb options "i" in
          let selected d := Regex.test ci alts (extractedText d.2) in
          Some (Ok (sort_createdAt_desc (List.filter selected (documents w))))
      | Regex.Invalid => Some (Throw (RegexError pattern))
      | Regex.Unsupported => None
      end
  end.

(** [Record.findById(id)] *)
Definition findById (id : string) : Eff (option Doc) :=
  match castObjectId id with
  | None => throw (CastError id)
  | Some oid => λ w, (w, Ok (pair oid <$> collection w !! oid))
  end.

(** [Record.findByIdAndDelete(id)] *)
Definition findByIdAndDelete (id : string) : Eff (option Doc) :=
  match castObjectId id with
  | None => throw (CastError id)
  | Some oid =>
      λ w, (mkWorld (files w) (delete oid (collection w)),
            Ok (pair oid <$> collection w !! oid))
  end.

End RecordModel.

(** ** Routes *)

Definition json (code : N) (b : Body) : Response := mkResponse code b.

(** [req.body.language || 'eng'] *)
Definition language_or_default (field : option string) : string :=
  match field with
  | Some l => if Str.is_empty l then "eng" else l
  | None => "eng"
  end.

(** [path.join(__dirname, record.imageUrl)], as a path relative to the
    working directory: the server is started from its own directory, so the
    image URL [/uploads/name] names the file [uploads/name]. *)
Fixpoint join_dirname (imageUrl : string) : string :=
  match imageUrl with
  | String c rest => if Path.is_slash c then join_dirname rest else imageUrl
  | EmptyString => EmptyString
  end.

(** [`uploads/processed-${Date.now()}.png`] *)
Definition processedPath (env : Env) : string :=
  "uploads/processed-" +:+ Str.decimal (processed_now env) +:+ ".png".

(** [req.file] for an admitted part: its generated name under
    [destination]. *)
Definition stored (env : Env) (file : FilePart) : StoredFile :=
  mkStoredFile (Multer.storage_filename env file)
               (Multer.destination +:+ Multer.storage_filename env file).

(** The state in which the handler starts for an admitted part. *)
Definition after_store (env : Env) (file : FilePart) (w : World) : World :=
  mkWorld ({[path (stored env file)]} ∪ files w) (collection w).

(** The [try] block of [POST /api/upload]. *)
Definition upload_try (env : Env) (file : option StoredFile)
    (language_field : option string) : Eff Response :=
  match file with
  | None => mret (json 400 (Failure "No image file uploaded" None))
  | Some file =>
      let imagePath := path file in
      let language := language_or_default language_field in
      let processedPath := processedPath env in
      let imageUrl := "/uploads/" +:+ filename file in
      (* Step 1: preprocess image using Sharp *)
      _ ← lift (sharp_toFile env);
      _ ← Fs.writeFile processedPath;
      (* Perform OCR using Tesseract.js *)
      text ← lift (tesseract_recognize env);
      (* Save to MongoDB *)
      let newRecord := mkRecord imageUrl (Str.trim text) language (created_now env) in
      savedRecord ← RecordModel.save (new_id env) newRecord;
      (* Optional: clean up intermediate files *)
      _ ← Fs.unlinkIfExists processedPath;
      mret (json 201
              (UploadSaved "Image processed and record saved successfully" savedRecord))
  end.

(** The [catch] block of [POST /api/upload]. *)
Definition upload_catch (file : option StoredFile) (error : Thrown) : Eff Response :=
  (* Clean up uploaded file if OCR fails *)
  _ ← match file with
      | Some file => Fs.unlinkIfExists (path file)
      | None => mret ()
      end;
  mret (json 500 (Failure "Failed to process image" (Some error))).

(** Error handling middleware. *)
Definition error_middleware (error : Thrown) : Response :=
  match error with
  | MulterError code =>
      if String.eqb code "LIMIT_FILE_SIZE"
      then json 400 (Failure "File too large. Maximum size is 10MB." None)
      else json 500 (Failure "Something went wrong!" (Some error))
  | _ => json 500 (Failure "Something went wrong!" (Some error))
  end.

(** [app.post('/api/upload', upload.single('image'), async (req, res) => ..)]:
    an error of the multer stage goes to the error handling middleware, the
    handler runs otherwise. *)
Definition post_upload (env : Env) (req : UploadRequest) (w : World) : World * Response :=
  match Multer.single env (image req) w with
  | (w1, Throw error) => (w1, error_middleware error)
  | (w1, Ok file) =>
      match try_catch (upload_try env file (body_language req)) (upload_catch file) w1 with
      | (w2, Ok response) => (w2, response)
      | (w2, Throw error) => (w2, error_middleware error)
      end
  end.

(** [app.get('/api/records', ..)]; [search] is [req.query.search].  [None]
    as a result: see [RecordModel.find_sorted]. *)
Definition get_records (search : option string) (w : World) : option Response :=
  let query :=
    match search with
    | Some search =>
        if Str.is_empty search then RecordModel.MatchAll
        else RecordModel.ExtractedTextRegex search "i"
    | None => RecordModel.MatchAll
    end in
  match RecordModel.find_sorted query w with
  | Some (Ok records) => Some (json 200 (RecordList records (length records)))
  | Some (Throw error) => Some (json 500 (Failure "Failed to fetch records" (Some error)))
  | None => None
  end.

(** Running a route handler.  The second case is there for the type only:
    every handler below is a [try_catch] whose [catch] block does not
    throw. *)
Definition run_handler (handler : Eff Response) (w : World) : World * Response :=
  match handler w with
  | (w', Ok response) => (w', response)
  | (w', Throw error) => (w', error_middleware error)
  end.

(** [app.get('/api/records/:id', ..)] *)
Definition get_record (id : string) : World → World * Response :=
  run_handler
    (try_catch
       (record ← RecordModel.findById id;
        match record with
        | None => mret (json 404 (Failure "Record not found" None))
        | Some record => mret (json 200 (RecordFound record))
        end)
       (λ error, mret (json 500 (Failure "Failed to fetch record" (Some error))))).

(** [app.delete('/api/records/:id', ..)] *)
Definition delete_record (id : string) : World → World * Response :=
  run_handler
    (try_catch
       (record ← RecordModel.findById id;
        match record with
        | None => mret (json 404 (Failure "Record not found" None))
        | Some record =>
            (* Delete associated image file *)
            let imagePath := join_dirname (imageUrl record.2) in
            _ ← Fs.unlinkIfExists imagePath;
            _ ← RecordModel.findByIdAndDelete id;
            mret (json 200 (Deleted "Record deleted successfully"))
        end)
       (λ error, mret (json 500 (Failure "Failed to delete record" (Some error))))).

(** ** The stated behaviour, in the words of the specification *)

Module Spec.

Fixpoint prefixb (s t : list ascii) : bool :=
  match s, t with
  | [], _ => true
  | a :: s', b :: t' => Ascii.eqb a b && prefixb s' t'
  | _ :: _, [] => false
  end.

Fixpoint infixb (s t : list ascii) : bool :=
  prefixb s t ||
  match t with
  | [] => false
  | _ :: t' => infixb s t'
  end.

(** "[extractedText] contains [search] as a literal substring, compared
    case-insensitively". *)
Definition contains_ci (search text : string) : bool :=
  infixb (Str.lower (Str.chars search)) (Str.lower (Str.chars text)).

(** "exactly those records of [list()] whose [extractedText] contains
    [search]". *)
Definition literal_search (search : string) (listed : list Doc) : list Doc :=
  List.filter (fun d => contains_ci search (extractedText d.2)) listed.

(** The allow-list of the upload validation. *)
Definition allow_list : list string :=
  ["png"; "jpg"; "jpeg"; "gif"; "bmp"; "tiff"; "webp"]%string.

(** "is exactly one of the allow-list" *)
Definition in_allow_list (s : string) : bool :=
  existsb (String.eqb s) allow_list.

(** The extension of a file name without its dot, in lower case. *)
Definition extension (name : string) : string :=
  match Str.toLowerCase (Path.extname name) with
  | String _ ext => ext
  | EmptyString => EmptyString
  end.

(** The string has one of the allow-list's entries somewhere in it. *)
Definition mentions_allowed (s : string) : bool :=
  existsb (fun t => infixb (Str.chars t) (Str.chars s)) allow_list.

(** Newest first: no record is followed by a newer one. *)
Definition descending (ds : list Doc) : Prop :=
  Sorted (fun a b : Doc => createdAt b.2 <= createdAt a.2) ds.

(** Strictly descending: every record is newer than the next one. *)
Definition strictly_descending (ds : list Doc) : Prop :=
  Sorted (fun a b : Doc => createdAt b.2 < createdAt a.2) ds.

End Spec.

(** The records of a list response, [[]] for any other response. *)
Definition listed (r : option Response) : list Doc :=
  match r with
  | Some (mkResponse _ (RecordList records _)) => records
  | _ => []
  end.

(** ** The browser side: [App.jsx]

    The [Records] component keeps the fetched list in its state and derives
    what it shows from it.  A record's [_id] arrives as the hexadecimal
    string of its [ObjectId]; two such strings are equal exactly when the
    identifiers are, and the embedding compares the identifiers. *)

Module Client.




(** [handleDelete] after a successful answer:
    [setRecords(records.filter(record => record._id !== id))]. *)
Definition removeRecord (id : ObjectId) (records : list Doc) : list Doc :=
  List.filter (fun record : Doc => negb (N.eqb record.1 id)) records.

(** [s.substring(from, to)] for [from <= to]. *)
Definition substring (from to : nat) (s : string) : string :=
  Str.of_chars (take (to - from) (drop from (Str.chars s))).

(** The text a record card shows:
    [text.length > 150 ? `${text.substring(0, 150)}...` : text || 'No text extracted']. *)
Definition cardText (text : string) : string :=
  if Nat.ltb 150 (length (Str.chars text)) then substring 0 150 text +:+ "..."
  else if Str.is_empty text then "No text extracted"
  else text.

End Client.

(** ** What the scan of [path.extname] maintains

    Predicates on the state of [Path.extname_loop], used to show which part
    of a path it returns.  [rev_path] is what is left to scan, [scanned] is
    what has been scanned, [sd], [e] and [ms] are [startDot], [end] and
    [matchedSlash]. *)

Module Scan.

(** A character that is neither a slash nor a dot. *)
Definition name_char (c : ascii) : bool :=
  negb (Path.is_slash c) && negb (Regex.is_dot c).

Definition dot : ascii := ascii_of_N 46.

(** A decimal digit. *)
Definition is_digit (c : ascii) : bool :=
  (48 <=? Str.code c) && (Str.code c <=? 57).

(** Once a character other than a slash has been seen, [e] is the index
    after it and the characters from the scan position up to [e] have no
    slash among them; [sd], once set, is the index of the last dot among
    them. *)
Definition inv (rev_path scanned : list ascii) (sd e : Z) (ms : bool) : Prop :=
  (e = (-1)%Z → sd = (-1)%Z) ∧
  (e ≠ (-1)%Z →
   ms = false ∧
   ∃ body tail,
     scanned = body ++ tail ∧
     e = Z.of_nat (length rev_path + length body) ∧
     Forall (fun c => Path.is_slash c = false) body ∧
     (sd = (-1)%Z → Forall (fun c => Regex.is_dot c = false) body) ∧
     (sd ≠ (-1)%Z →
      ∃ pre r,
        body = pre ++ dot :: r ∧
        sd = Z.of_nat (length rev_path + length pre) ∧
        Forall (fun c => Regex.is_dot c = false) r)).

(** [sd] and [e], when both are set, delimit a dot followed by name
    characters. *)
Definition final (cs : list ascii) (sd e : Z) : Prop :=
  sd = (-1)%Z ∨ e = (-1)%Z ∨
  ∃ front r tail,
    cs = front ++ dot :: r ++ tail ∧
    sd = Z.of_nat (length front) ∧
    e = Z.of_nat (length front + 1 + length r) ∧
    Forall (fun c => name_char c = true) r.

End Scan.

(** ** The list route over any store

    [get_records] above evaluates the search with the embedded fragment of
    the pattern language and one particular sort.  The route itself only
    asks two things of the store: to test a field value against the pattern
    (or to reject the pattern), and to sort by [createdAt], newest first.
    Here both are taken from outside, so that every search string and every
    order the store may give to records of equal [createdAt] is covered. *)

(** The store's regular-expression engine: [engine pattern options] is the
    test that the pattern makes on a field value, [None] when the store
    rejects the pattern and the query throws. *)
Definition Engine : Type := string → string → option (string → bool).

(** The store's [sort({ createdAt: -1 })]. *)
Definition Order : Type := list Doc → list Doc.

Module Store.

(** The sort returns the documents it is given, newest first. *)
Definition sorts (order : Order) : Prop :=
  ∀ docs, order docs ≡ₚ docs ∧ Spec.descending (order docs).

(** The engine agrees with the embedded fragment where the fragment says
    what a pattern means. *)
Definition knows_fragment (engine : Engine) : Prop :=
  ∀ pattern,
    match Regex.compile pattern with
    | Regex.Pattern alts =>
        ∃ matches, engine pattern "i"%string = Some matches ∧
                   ∀ text, matches text = Regex.test true alts text
    | Regex.Invalid => engine pattern "i"%string = None
    | Regex.Unsupported => True
    end.

(** [Record.find(query).sort({ createdAt: -1 })] *)
Definition find_sorted (engine : Engine) (order : Order)
    (query : RecordModel.Query) (w : World) : outcome (list Doc) :=
  match query with
  | RecordModel.MatchAll => Ok (order (RecordModel.documents w))
  | RecordModel.ExtractedTextRegex pattern options =>
      match engine pattern options with
      | Some matches =>
          Ok (order (List.filter (fun d : Doc => matches (extractedText d.2))
                       (RecordModel.documents w)))
      | None => Throw (RegexError pattern)
      end
  end.

End Store.

(** [app.get('/api/records', ..)] over a store with the given engine and
    sort. *)
Definition get_records_on (engine : Engine) (order : Order)
    (search : option string) (w : World) : Response :=
  let query :=
    match search with
    | Some search =>
        if Str.is_empty search then RecordModel.MatchAll
        else RecordModel.ExtractedTextRegex search "i"
    | None => RecordModel.MatchAll
    end in
  match Store.find_sorted engine order query w with
  | Ok records => json 200 (RecordList records (length records))
  | Throw error => json 500 (Failure "Failed to fetch records" (Some error))
  end.

(** The [records] of a list response, [[]] for any other response. *)
Definition listed_of (r : Response) : list Doc :=
  match body r with
  | RecordList records _ => records
  | _ => []
  end.



(** ** Sample runs *)

Module Sample.

Definition empty_world : World := mkWorld ∅ ∅.

Definition env (now : N) (id : ObjectId) (text : outcome string) : Env :=
  mkEnv now 42 (now + 1) (Ok ()) text (now + 2) id.

Definition png (bytes : N) : FilePart := mkFilePart "scan.png" "image/png" bytes.

Definition upload (part : FilePart) (lang : option string) : UploadRequest :=
  mkUploadRequest (Some part) lang.

(** An upload whose recognition step throws. *)
Definition failed_recognition : World * Response :=
  post_upload (env 1000 7 (Throw (PlainError "recognition failed")))
    (upload (png 500) (Some "eng")) empty_world.

(** An upload of a blank page: the recognised text is white space. *)
Definition blank_page : World * Response :=
  post_upload (env 1000 7 (Ok "  ")) (upload (png 500) (Some "eng")) empty_world.

(** A 15 MiB upload of a program. *)
Definition big_exe : FilePart :=
  mkFilePart "setup.exe" "application/octet-stream" (15 * 1024 * 1024).

Definition oversized_exe : World * Response :=
  post_upload (env 1000 7 (Ok "Hello")) (upload big_exe None) empty_world.

(** An upload named [scan.pngx]. *)
Definition pngx : FilePart := mkFilePart "scan.pngx" "image/png" 500.

Definition pngx_upload : World * Response :=
  post_upload (env 1000 7 (Ok "Hello")) (upload pngx None) empty_world.

(** One stored record, with the text [Hello]. *)
Definition one_record : World :=
  (post_upload (env 1000 7 (Ok " Hello ")) (upload (png 500) (Some "eng"))
     empty_world).1.

(** An upload whose preprocessing step throws. *)
Definition failed_preprocessing : Env :=
  mkEnv 1000 42 1001 (Throw (PlainError "unsupported image format")) (Ok "Hello")
    1002 7.

(** Two uploads that are saved within the same millisecond. *)
Definition same_millisecond : World :=
  (post_upload (mkEnv 1000 43 1001 (Ok ()) (Ok "World") 1002 8)
     (upload (png 600) (Some "eng")) one_record).1.


(** An engine for the sample runs: it knows the embedded fragment and
    rejects every other pattern. *)
Definition engine : Engine :=
  fun pattern options =>
    match Regex.compile pattern with
    | Regex.Pattern alts => Some (Regex.test (String.eqb options "i") alts)
    | _ => None
    end.

End Sample.

(** * Properties *)

(** Unfolding the statements of a handler. *)
Ltac run_eff :=
  unfold Fs.unlinkIfExists;
  unfold try_catch, lift, throw, Fs.existsSync, Fs.unlinkSync, Fs.writeFile,
    mbind, Eff_bind, mret, Eff_ret;
  cbn beta iota.

Ltac run_route :=
  unfold get_record, delete_record, run_handler, RecordModel.findById,
    RecordModel.findByIdAndDelete;
  run_eff.

(** ** Sample evaluations *)

Example lower_ex : Str.toLowerCase "Scan.PNG" = "scan.png"%string.
Proof. reflexivity. Qed.

Example trim_ex : Str.trim "  a b
 "%string = "a b"%string.
Proof. reflexivity. Qed.

Example decimal_ex : Str.decimal 1700000000000 = "1700000000000"%string.
Proof. reflexivity. Qed.

Example compile_ex :
  Regex.compile "a.c|d" =
  Regex.Pattern [[Regex.Lit "a"; Regex.Dot; Regex.Lit "c"]; [Regex.Lit "d"]].
Proof. reflexivity. Qed.

Example compile_bad : Regex.compile "*a" = Regex.Invalid.
Proof. reflexivity. Qed.

Example compile_out : Regex.compile "(a)" = Regex.Unsupported.
Proof. reflexivity. Qed.

Example extname_ex1 : Path.extname "scan.PNG" = ".PNG"%string.
Proof. reflexivity. Qed.

Example extname_ex2 : Path.extname ".bashrc" = ""%string.
Proof. reflexivity. Qed.

Example extname_ex3 : Path.extname "a/b.c/index" = ""%string.
Proof. reflexivity. Qed.

Example extname_ex4 : Path.extname "archive.tar.gz/" = ".gz"%string.
Proof. reflexivity. Qed.

Example extname_ex5 : Path.extname ".." = ""%string.
Proof. reflexivity. Qed.

Example extname_ex6 : Path.extname "index." = "."%string.
Proof. reflexivity. Qed.

(** ** Strings and patterns *)

Section Patterns.

Implicit Types s t cs : list ascii.

Lemma prefixb_spec s t : Spec.prefixb s t = true ↔ ∃ post, t = s ++ post.
Proof.
  revert t; induction s as [|a s IH]; intros t; simpl.
  - split; eauto.
  - destruct t as [|b t].
    + split; [done | intros [post H]; discriminate].
    + rewrite andb_true_iff, IH. split.
      * intros [Hab [post ->]]. apply Ascii.eqb_eq in Hab as ->. eauto.
      * intros [post H]. injection H as -> ->.
        split; [apply Ascii.eqb_refl | eauto].
Qed.

Lemma infixb_spec s t : Spec.infixb s t = true ↔ Str.infix_of s t.
Proof.
  unfold Str.infix_of. induction t as [|b t IH]; simpl.
  - rewrite orb_false_r, prefixb_spec. split.
    + intros [post H]. by exists [], post.
    + intros [[|a pre] [post H]]; [eauto | discriminate].
  - rewrite orb_true_iff, prefixb_spec, IH. split.
    + intros [[post H] | (pre & post & H)].
      * by exists [], post.
      * exists (b :: pre), post. by rewrite H.
    + intros [[|a pre] [post H]].
      * left. eauto.
      * right. injection H as -> ->. eauto.
Qed.

Lemma match_here_literal s t :
  Regex.match_here false (map Regex.Lit s) t = Spec.prefixb s t.
Proof.
  revert t; induction s as [|a s IH]; intros [|b t]; simpl; try done.
  by rewrite IH.
Qed.


Lemma match_anywhere_literal s t :
  Regex.match_anywhere false (map Regex.Lit s) t = Spec.infixb s t.
Proof.
  induction t as [|b t IH]; simpl.
  - by rewrite match_here_literal.
  - by rewrite match_here_literal, IH.
Qed.









(** The literal substring test of the specification is containment of the
    lower-cased search string in the lower-cased text. *)
Lemma contains_ci_spec (search text : string) :
  Spec.contains_ci search text = true ↔
  Str.infix_of (Str.lower (Str.chars search)) (Str.lower (Str.chars text)).
Proof. apply infixb_spec. Qed.

(** The upload filter's expression finds one of its seven words in the
    subject. *)
Lemma allowedTypes_test_spec (s : string) :
  Multer.allowedTypes_test s = Spec.mentions_allowed s.
Proof.
  unfold Multer.allowedTypes_test, Spec.mentions_allowed, Regex.test.
  change Multer.allowedTypes with
    (Regex.Pattern (map (fun word : string => map Regex.Lit (Str.chars word))
                      ["jpeg"; "jpg"; "png"; "gif"; "bmp"; "tiff"; "webp"]%string)).
  cbn [map existsb Spec.allow_list].
  rewrite !match_anywhere_literal.
  repeat (destruct (Spec.infixb _ _)); reflexivity.
Qed.

End Patterns.

(** ** Sorting by [createdAt] *)

Section Sorting.

Implicit Types (d : Doc) (ds : list Doc) (keep : Doc → bool).

Local Abbreviation newer_eq := (fun a b : Doc => createdAt b.2 <= createdAt a.2).

Lemma insert_desc_perm d ds : RecordModel.insert_desc d ds ≡ₚ d :: ds.
Proof.
  induction ds as [|d' ds IH]; simpl; [done|].
  destruct (createdAt d'.2 <? createdAt d.2); [done|].
  rewrite IH. apply perm_swap.
Qed.

Lemma sort_perm ds : RecordModel.sort_createdAt_desc ds ≡ₚ ds.
Proof.
  induction ds as [|d ds IH]; simpl; [done|].
  by rewrite insert_desc_perm, IH.
Qed.

Lemma insert_desc_hd d d0 ds :
  createdAt d.2 <= createdAt d0.2 →
  HdRel newer_eq d0 ds →
  HdRel newer_eq d0 (RecordModel.insert_desc d ds).
Proof.
  intros Hd [|d' ds' H]; simpl.
  - by constructor.
  - destruct (createdAt d'.2 <? createdAt d.2); by constructor.
Qed.

Lemma insert_desc_sorted d ds :
  Spec.descending ds → Spec.descending (RecordModel.insert_desc d ds).
Proof.
  unfold Spec.descending.
  induction 1 as [|d' ds Hs IH Hhd]; simpl.
  - repeat constructor.
  - destruct (createdAt d'.2 <? createdAt d.2) eqn:E.
    + apply N.ltb_lt in E. repeat constructor; [done.. | lia].
    + apply N.ltb_ge in E. constructor; [done|].
      by apply insert_desc_hd.
Qed.

Lemma sort_descending ds : Spec.descending (RecordModel.sort_createdAt_desc ds).
Proof.
  induction ds as [|d ds IH]; simpl.
  - constructor.
  - by apply insert_desc_sorted.
Qed.

Lemma descending_bound d ds :
  Spec.descending (d :: ds) → Forall (fun x => createdAt x.2 <= createdAt d.2) ds.
Proof.
  intros H. apply Sorted_StronglySorted in H.
  - by apply StronglySorted_inv in H as [_ H].
  - intros a b c Hab Hbc. simpl in *. lia.
Qed.

Lemma insert_desc_front d ds :
  Forall (fun x => createdAt x.2 < createdAt d.2) ds →
  RecordModel.insert_desc d ds = d :: ds.
Proof.
  intros [|d' ds' H _]; simpl; [done|].
  apply N.ltb_lt in H. by rewrite H.
Qed.

(** With pairwise different timestamps the order is strict. *)
Lemma descending_strict ds :
  Spec.descending ds →
  NoDup (map (fun d : Doc => createdAt d.2) ds) →
  Spec.strictly_descending ds.
Proof.
  unfold Spec.descending, Spec.strictly_descending.
  induction 1 as [|d ds Hs IH Hhd]; intros Hnd; [constructor|].
  simpl in Hnd. apply NoDup_cons in Hnd as [Hd Hnd].
  constructor; [by apply IH|].
  destruct Hhd as [|d' ds' Hle]; constructor.
  assert (createdAt d.2 ≠ createdAt d'.2) as Hne.
  { intros Heq. apply Hd. rewrite Heq. simpl. apply list_elem_of_here. }
  lia.
Qed.

(** Selecting from a sorted list and inserting commute. *)
Lemma filter_insert_desc keep d ds :
  Spec.descending ds →
  List.filter keep (RecordModel.insert_desc d ds) =
  if keep d then RecordModel.insert_desc d (List.filter keep ds)
  else List.filter keep ds.
Proof.
  induction ds as [|d' ds IH]; intros Hs.
  - simpl. by destruct (keep d).
  - simpl. destruct (createdAt d'.2 <? createdAt d.2) eqn:E.
    + change (List.filter keep (d :: d' :: ds))
        with (if keep d then d :: List.filter keep (d' :: ds)
              else List.filter keep (d' :: ds)).
      destruct (keep d); [|done].
      symmetry. apply insert_desc_front.
      apply N.ltb_lt in E.
      assert (Forall (fun x => createdAt x.2 < createdAt d.2) (d' :: ds)) as Hall.
      { constructor; [done|].
        eapply Forall_impl; [by apply descending_bound|].
        intros x Hx. simpl in Hx. lia. }
      rewrite Forall_forall in Hall |- *.
      intros x Hx. apply Hall.
      apply list_elem_of_In in Hx. apply filter_In in Hx as [Hx _].
      by apply list_elem_of_In.
    + assert (Spec.descending ds) as Hs' by (by inversion Hs).
      simpl. rewrite (IH Hs').
      destruct (keep d'), (keep d); simpl; by rewrite ?E.
Qed.

Lemma filter_sort keep ds :
  List.filter keep (RecordModel.sort_createdAt_desc ds) =
  RecordModel.sort_createdAt_desc (List.filter keep ds).
Proof.
  induction ds as [|d ds IH]; simpl; [done|].
  rewrite filter_insert_desc by apply sort_descending.
  rewrite IH. by destruct (keep d).
Qed.

End Sorting.

(** ** The upload route, case by case *)

Section Upload.

Variables (env : Env) (w : World).

Lemma fileFilter_cases file :
  Multer.fileFilter file = Ok true ∨
  Multer.fileFilter file = Throw (PlainError "Only image files are allowed!").
Proof. unfold Multer.fileFilter. destruct (_ && _); auto. Qed.

(** A part the filter rejects: nothing is written. *)
Lemma single_filtered file e :
  Str.is_empty (originalname file) = false →
  Multer.fileFilter file = Throw e →
  Multer.single env (Some file) w = (w, Throw e).
Proof.
  intros Hname Hf. unfold Multer.single. rewrite Hname. run_eff. by rewrite Hf.
Qed.

(** A part the filter admits and that fits: it is stored under its
    generated name. *)
Lemma single_stored file :
  Str.is_empty (originalname file) = false →
  Multer.fileFilter file = Ok true →
  size file <= Multer.fileSize →
  Multer.single env (Some file) w =
  (mkWorld ({[path (stored env file)]} ∪ files w) (collection w),
   Ok (Some (stored env file))).
Proof.
  intros Hname Hf Hsize. unfold Multer.single. rewrite Hname. run_eff.
  rewrite Hf. cbn. apply N.ltb_ge in Hsize. by rewrite Hsize.
Qed.

(** A part the filter admits and that is too large: what was written is
    removed again. *)
Lemma single_too_large file :
  Str.is_empty (originalname file) = false →
  Multer.fileFilter file = Ok true →
  Multer.fileSize < size file →
  Multer.single env (Some file) w =
  (mkWorld (({[path (stored env file)]} ∪ files w) ∖ {[path (stored env file)]})
     (collection w),
   Throw (MulterError "LIMIT_FILE_SIZE")).
Proof.
  intros Hname Hf Hsize. unfold Multer.single. rewrite Hname. run_eff.
  rewrite Hf. cbn. apply N.ltb_lt in Hsize. by rewrite Hsize.
Qed.

Lemma imageUrl_nonempty (name : string) :
  Str.is_empty ("/uploads/" +:+ name) = false.
Proof. reflexivity. Qed.

Lemma post_upload_admitted req file :
  image req = Some file →
  Str.is_empty (originalname file) = false →
  Multer.fileFilter file = Ok true →
  size file <= Multer.fileSize →
  post_upload env req w =
  match try_catch (upload_try env (Some (stored env file)) (body_language req))
                  (upload_catch (Some (stored env file))) (after_store env file w) with
  | (w2, Ok response) => (w2, response)
  | (w2, Throw error) => (w2, error_middleware error)
  end.
Proof.
  intros Himg Hname Hf Hsize. unfold post_upload.
  by rewrite Himg, (single_stored file Hname Hf Hsize).
Qed.

(** Preprocessing throws: the raw upload is removed, nothing else has
    happened. *)
Lemma upload_preprocess_fails req file e :
  image req = Some file →
  Str.is_empty (originalname file) = false →
  Multer.fileFilter file = Ok true →
  size file <= Multer.fileSize →
  sharp_toFile env = Throw e →
  post_upload env req w =
  (mkWorld (({[path (stored env file)]} ∪ files w) ∖ {[path (stored env file)]})
     (collection w),
   json 500 (Failure "Failed to process image" (Some e))).
Proof.
  intros Himg Hname Hf Hsize Hsharp.
  rewrite (post_upload_admitted req file) by done.
  unfold upload_try, upload_catch, after_store. run_eff. rewrite Hsharp. cbn.
  rewrite bool_decide_eq_true_2 by set_solver. done.
Qed.

(** Recognition throws after preprocessing succeeded: the raw upload is
    removed, the preprocessed file is still there. *)
Lemma upload_recognition_fails req file e :
  image req = Some file →
  Str.is_empty (originalname file) = false →
  Multer.fileFilter file = Ok true →
  size file <= Multer.fileSize →
  sharp_toFile env = Ok () →
  tesseract_recognize env = Throw e →
  post_upload env req w =
  (mkWorld (({[processedPath env]} ∪ ({[path (stored env file)]} ∪ files w))
              ∖ {[path (stored env file)]})
     (collection w),
   json 500 (Failure "Failed to process image" (Some e))).
Proof.
  intros Himg Hname Hf Hsize Hsharp Hocr.
  rewrite (post_upload_admitted req file) by done.
  unfold upload_try, upload_catch, after_store. run_eff. rewrite Hsharp, Hocr. cbn.
  rewrite bool_decide_eq_true_2 by set_solver. done.
Qed.

(** Recognition returns text that trims to nothing: [save] fails the
    [required] validator of [extractedText], and the [catch] block runs. *)
Lemma upload_blank_text req file text :
  image req = Some file →
  Str.is_empty (originalname file) = false →
  Multer.fileFilter file = Ok true →
  size file <= Multer.fileSize →
  sharp_toFile env = Ok () →
  tesseract_recognize env = Ok text →
  Str.is_empty (Str.trim text) = true →
  post_upload env req w =
  (mkWorld (({[processedPath env]} ∪ ({[path (stored env file)]} ∪ files w))
              ∖ {[path (stored env file)]})
     (collection w),
   json 500 (Failure "Failed to process image"
               (Some (ValidationError "extractedText")))).
Proof.
  intros Himg Hname Hf Hsize Hsharp Hocr Hblank.
  rewrite (post_upload_admitted req file) by done.
  unfold upload_try, upload_catch, after_store, RecordModel.save, RecordModel.validate,
    RecordModel.required.
  run_eff. rewrite Hsharp, Hocr. cbn. rewrite imageUrl_nonempty, Hblank. cbn.
  rewrite bool_decide_eq_true_2 by set_solver. done.
Qed.

(** Everything succeeds: the record is inserted under the new identifier and
    the preprocessed file is removed. *)
Lemma upload_saved req file text :
  image req = Some file →
  Str.is_empty (originalname file) = false →
  Multer.fileFilter file = Ok true →
  size file <= Multer.fileSize →
  sharp_toFile env = Ok () →
  tesseract_recognize env = Ok text →
  Str.is_empty (Str.trim text) = false →
  collection w !! new_id env = None →
  let doc := mkRecord ("/uploads/" +:+ filename (stored env file)) (Str.trim text)
               (language_or_default (body_language req)) (created_now env) in
  post_upload env req w =
  (mkWorld (({[processedPath env]} ∪ ({[path (stored env file)]} ∪ files w))
              ∖ {[processedPath env]})
     (<[new_id env := doc]> (collection w)),
   json 201 (UploadSaved "Image processed and record saved successfully"
               (new_id env, doc))).
Proof.
  intros Himg Hname Hf Hsize Hsharp Hocr Htext Hfresh doc.
  rewrite (post_upload_admitted req file) by done.
  unfold upload_try, upload_catch, after_store, RecordModel.save, RecordModel.validate,
    RecordModel.required, RecordModel.insertOne.
  run_eff. rewrite Hsharp, Hocr. cbn. rewrite imageUrl_nonempty, Htext. cbn.
  rewrite Hfresh. cbn.
  rewrite bool_decide_eq_true_2 by set_solver. done.
Qed.

(** The new identifier is taken: [save] fails on the duplicate key. *)
Lemma upload_duplicate_id req file text doc :
  image req = Some file →
  Str.is_empty (originalname file) = false →
  Multer.fileFilter file = Ok true →
  size file <= Multer.fileSize →
  sharp_toFile env = Ok () →
  tesseract_recognize env = Ok text →
  Str.is_empty (Str.trim text) = false →
  collection w !! new_id env = Some doc →
  post_upload env req w =
  (mkWorld (({[processedPath env]} ∪ ({[path (stored env file)]} ∪ files w))
              ∖ {[path (stored env file)]})
     (collection w),
   json 500 (Failure "Failed to process image" (Some (DuplicateKey (new_id env))))).
Proof.
  intros Himg Hname Hf Hsize Hsharp Hocr Htext Htaken.
  rewrite (post_upload_admitted req file) by done.
  unfold upload_try, upload_catch, after_store, RecordModel.save, RecordModel.validate,
    RecordModel.required, RecordModel.insertOne.
  run_eff. rewrite Hsharp, Hocr. cbn. rewrite imageUrl_nonempty, Htext. cbn.
  rewrite Htaken. cbn.
  rewrite bool_decide_eq_true_2 by set_solver. done.
Qed.

(** No part in the [image] field, or a part without a file name. *)
Lemma upload_no_file req :
  match image req with
  | Some file => Str.is_empty (originalname file) = true
  | None => True
  end →
  post_upload env req w = (w, json 400 (Failure "No image file uploaded" None)).
Proof.
  unfold post_upload, Multer.single. destruct (image req) as [file|].
  - by intros ->.
  - done.
Qed.

(** The filter rejects the part: its error reaches the last middleware. *)
Lemma upload_filtered req file :
  image req = Some file →
  Str.is_empty (originalname file) = false →
  Multer.fileFilter file ≠ Ok true →
  post_upload env req w =
  (w, json 500 (Failure "Something went wrong!"
                  (Some (PlainError "Only image files are allowed!")))).
Proof.
  intros Himg Hname Hf. unfold post_upload. rewrite Himg.
  destruct (fileFilter_cases file) as [?|Hrej]; [done|].
  by rewrite (single_filtered file _ Hname Hrej).
Qed.

(** The filter admits the part and the part is too large. *)
Lemma upload_too_large req file :
  image req = Some file →
  Str.is_empty (originalname file) = false →
  Multer.fileFilter file = Ok true →
  Multer.fileSize < size file →
  post_upload env req w =
  (mkWorld (({[path (stored env file)]} ∪ files w) ∖ {[path (stored env file)]})
     (collection w),
   json 400 (Failure "File too large. Maximum size is 10MB." None)).
Proof.
  intros Himg Hname Hf Hsize. unfold post_upload. rewrite Himg.
  by rewrite (single_too_large file Hname Hf Hsize).
Qed.

(** A [201] is the answer of the last case only. *)
Lemma upload_created_inv req :
  status (post_upload env req w).2 = 201 →
  ∃ file text,
    image req = Some file ∧
    Str.is_empty (originalname file) = false ∧
    Multer.fileFilter file = Ok true ∧
    size file <= Multer.fileSize ∧
    sharp_toFile env = Ok () ∧
    tesseract_recognize env = Ok text ∧
    Str.is_empty (Str.trim text) = false ∧
    collection w !! new_id env = None.
Proof.
  destruct (image req) as [file|] eqn:Himg;
    [|by rewrite upload_no_file by (by rewrite Himg)].
  destruct (Str.is_empty (originalname file)) eqn:Hname;
    [by rewrite upload_no_file by (by rewrite Himg)|].
  destruct (fileFilter_cases file) as [Hf|Hf];
    [|by rewrite (upload_filtered req file) by (done || congruence)].
  destruct (N.le_gt_cases (size file) Multer.fileSize) as [Hsize|Hsize];
    [|by rewrite (upload_too_large req file)].
  destruct (sharp_toFile env) as [[]|e] eqn:Hsharp;
    [|by rewrite (upload_preprocess_fails req file e)].
  destruct (tesseract_recognize env) as [text|e] eqn:Hocr;
    [|by rewrite (upload_recognition_fails req file e)].
  destruct (Str.is_empty (Str.trim text)) eqn:Htext;
    [by rewrite (upload_blank_text req file text)|].
  destruct (collection w !! new_id env) as [doc|] eqn:Hid;
    [by rewrite (upload_duplicate_id req file text doc)|].
  intros _. by exists file, text.
Qed.

End Upload.

Lemma processed_not_raw env file : processedPath env ≠ path (stored env file).
Proof.
  unfold processedPath, stored, Multer.destination, Multer.storage_filename.
  cbv [path String.append]. discriminate.
Qed.

(** ** Failure of the recognition step *)

(** Whenever recognition throws after preprocessing succeeded, the handler
    answers 500, inserts nothing and removes the raw upload; the preprocessed
    file stays in the storage directory. *)
Lemma recognition_failure_effects env req w file e :
  image req = Some file →
  Str.is_empty (originalname file) = false →
  Multer.fileFilter file = Ok true →
  size file <= Multer.fileSize →
  sharp_toFile env = Ok () →
  tesseract_recognize env = Throw e →
  status (post_upload env req w).2 = 500 ∧
  collection (post_upload env req w).1 = collection w ∧
  (path (stored env file) ∉ files (post_upload env req w).1) ∧
  (processedPath env ∈ files (post_upload env req w).1).
Proof.
  intros Himg Hname Hf Hsize Hsharp Hocr.
  rewrite (upload_recognition_fails env w req file e) by done. simpl.
  pose proof (processed_not_raw env file) as Hne.
  split_and!; [done | done | |].
  - intros [_ Hn]%elem_of_difference. apply Hn. by apply elem_of_singleton.
  - apply elem_of_difference. split.
    + apply elem_of_union_l. by apply elem_of_singleton.
    + by intros ?%elem_of_singleton.
Qed.

(** C1: when the recognition step fails the handler returns an error, inserts
    no record and removes the raw upload, but the temporary preprocessed file
    it created is still in the storage directory afterwards.  Run on an
    upload of [scan.png] whose recognition throws. *)
Theorem C1_failed_recognition_keeps_processed_file :
  status Sample.failed_recognition.2 = 500 ∧
  collection Sample.failed_recognition.1 = ∅ ∧
  elements (files Sample.failed_recognition.1) = ["uploads/processed-1001.png"%string].
Proof. by vm_compute. Qed.

(** ** What a saved upload stores *)

(** A [201] answer carries the document that was inserted under the new
    identifier: the trimmed text, which is not empty, the language of the
    request or its default, and the clock's time. *)
Lemma upload_created env req w :
  status (post_upload env req w).2 = 201 →
  ∃ file text,
    image req = Some file ∧
    tesseract_recognize env = Ok text ∧
    Str.is_empty (Str.trim text) = false ∧
    let doc := mkRecord ("/uploads/" +:+ filename (stored env file)) (Str.trim text)
                 (language_or_default (body_language req)) (created_now env) in
    body (post_upload env req w).2 =
      UploadSaved "Image processed and record saved successfully" (new_id env, doc) ∧
    collection (post_upload env req w).1 = <[new_id env := doc]> (collection w).
Proof.
  intros H.
  destruct (upload_created_inv env w req H)
    as (file & text & Himg & Hname & Hf & Hsize & Hsharp & Hocr & Htext & Hid).
  exists file, text. do 3 (split; [done|]). intros doc.
  by rewrite (upload_saved env w req file text).
Qed.

(** C5: an upload whose recognised text is white space only is not
    persisted.  [extractedText] would be the empty string, the [required]
    validator of the schema rejects it, and the request ends in the [catch]
    block with a 500 and no record. *)
Theorem C5_blank_text_is_rejected_by_the_schema :
  Str.trim "  " = ""%string ∧
  Sample.blank_page.2 =
    json 500 (Failure "Failed to process image"
                (Some (ValidationError "extractedText"))) ∧
  collection Sample.blank_page.1 = ∅.
Proof. by vm_compute. Qed.

(** C9: the record a successful upload stores has the language code of the
    request when the request has a non-empty one, and [eng] when the field
    is missing or empty. *)
Theorem C9_language_of_saved_record env req w :
  status (post_upload env req w).2 = 201 →
  ∃ doc,
    body (post_upload env req w).2 =
      UploadSaved "Image processed and record saved successfully" (new_id env, doc) ∧
    collection (post_upload env req w).1 !! new_id env = Some doc ∧
    (∀ code, body_language req = Some code → code ≠ ""%string → language doc = code) ∧
    (body_language req = None ∨ body_language req = Some ""%string →
     language doc = "eng"%string).
Proof.
  intros H.
  destruct (upload_created env req w H) as (file & text & _ & _ & _ & Hbody & Hcol).
  eexists. split; [exact Hbody|]. split; [by rewrite Hcol, lookup_insert_eq|].
  simpl. split.
  - intros code -> Hcode. simpl. by destruct code.
  - by intros [-> | ->].
Qed.

Lemma C9_language_of_saved_record_witness :
  status (post_upload (Sample.env 1000 7 (Ok " Hello "))
            (Sample.upload (Sample.png 500) (Some "fra")) Sample.empty_world).2 = 201 ∧
  ∃ doc,
    body (post_upload (Sample.env 1000 7 (Ok " Hello "))
            (Sample.upload (Sample.png 500) (Some "fra")) Sample.empty_world).2 =
      UploadSaved "Image processed and record saved successfully" (7, doc) ∧
    collection (post_upload (Sample.env 1000 7 (Ok " Hello "))
            (Sample.upload (Sample.png 500) (Some "fra")) Sample.empty_world).1 !! 7
      = Some doc ∧
    (∀ code, Some "fra"%string = Some code → code ≠ ""%string → language doc = code) ∧
    (Some "fra"%string = None ∨ Some "fra"%string = Some ""%string →
     language doc = "eng"%string).
Proof.
  split; [reflexivity|].
  apply (C9_language_of_saved_record (Sample.env 1000 7 (Ok " Hello "))
           (Sample.upload (Sample.png 500) (Some "fra")) Sample.empty_world).
  reflexivity.
Defined.

(** ** Validation of the upload *)

(** An admitted part that is larger than the limit is answered with 400; no
    record is inserted and the stored bytes are removed again. *)
Lemma too_large_effects env req w file :
  image req = Some file →
  Str.is_empty (originalname file) = false →
  Multer.fileFilter file = Ok true →
  Multer.fileSize < size file →
  status (post_upload env req w).2 = 400 ∧
  collection (post_upload env req w).1 = collection w ∧
  (path (stored env file) ∉ files (post_upload env req w).1).
Proof.
  intros Himg Hname Hf Hsize.
  rewrite (upload_too_large env w req file) by done. simpl.
  split_and!; [done | done |].
  intros [_ Hn]%elem_of_difference. apply Hn. by apply elem_of_singleton.
Qed.

(** C8: an upload over the size limit is answered with 400 only when the
    type filter admits it.  The filter runs before any byte is counted, and
    its rejection is answered by the last middleware with 500: a 15 MiB
    [setup.exe] gets a 500. *)
Theorem C8_oversized_rejected_type_gets_500 :
  Multer.fileSize < size Sample.big_exe ∧
  Sample.oversized_exe =
    (Sample.empty_world,
     json 500 (Failure "Something went wrong!"
                 (Some (PlainError "Only image files are allowed!")))).
Proof. by vm_compute. Qed.

(** The filter admits a part exactly when both tested strings have one of
    the seven words in them. *)
Lemma fileFilter_spec file :
  Multer.fileFilter file = Ok true ↔
  Spec.mentions_allowed (Str.toLowerCase (Path.extname (originalname file))) = true ∧
  Spec.mentions_allowed (mimetype file) = true.
Proof.
  unfold Multer.fileFilter. rewrite !allowedTypes_test_spec.
  destruct (Spec.mentions_allowed (mimetype file)),
    (Spec.mentions_allowed (Str.toLowerCase _)); simpl; split;
    (done || intros [? ?]; done).
Qed.

(** C3, with "exactly one of the allow-list", does not hold: the extension
    of [scan.pngx] is not in the allow-list, and the upload is admitted,
    processed and saved. *)
Lemma C3_extension_outside_allow_list_is_admitted :
  Spec.extension (originalname Sample.pngx) = "pngx"%string ∧
  Spec.in_allow_list (Spec.extension (originalname Sample.pngx)) = false ∧
  Multer.fileFilter Sample.pngx = Ok true ∧
  status Sample.pngx_upload.2 = 201 ∧
  length (map_to_list (collection Sample.pngx_upload.1)) = 1%nat.
Proof. by vm_compute. Qed.

(** C3: the upload filter admits a part exactly when the lower-cased
    extension of its name and its declared content type each have one of
    the words png, jpg, jpeg, gif, bmp, tiff, webp somewhere in them.  A
    part for which one of the two has none is answered with an error, and
    the request leaves the collection and the files as they were. *)
Theorem C3_filter_looks_for_the_words_anywhere env req w file :
  image req = Some file →
  (Multer.fileFilter file = Ok true ↔
   Spec.mentions_allowed (Str.toLowerCase (Path.extname (originalname file))) = true ∧
   Spec.mentions_allowed (mimetype file) = true) ∧
  (Spec.mentions_allowed (Str.toLowerCase (Path.extname (originalname file))) = false ∨
   Spec.mentions_allowed (mimetype file) = false →
   (post_upload env req w).1 = w ∧
   ∃ error details, body (post_upload env req w).2 = Failure error details).
Proof.
  intros Himg. split; [apply fileFilter_spec|].
  intros Hnone.
  assert (Multer.fileFilter file ≠ Ok true) as Hrej.
  { rewrite fileFilter_spec. intros [? ?]. destruct Hnone; congruence. }
  destruct (Str.is_empty (originalname file)) eqn:Hname.
  - rewrite upload_no_file by (by rewrite Himg). simpl. eauto.
  - rewrite (upload_filtered env w req file) by done. simpl. eauto.
Qed.

Lemma C3_filter_looks_for_the_words_anywhere_witness :
  image (Sample.upload Sample.big_exe None) = Some Sample.big_exe ∧
  Spec.mentions_allowed
    (Str.toLowerCase (Path.extname (originalname Sample.big_exe))) = false ∧
  (post_upload (Sample.env 1000 7 (Ok "Hello")) (Sample.upload Sample.big_exe None)
     Sample.empty_world).1 = Sample.empty_world ∧
  ∃ error details,
    body (post_upload (Sample.env 1000 7 (Ok "Hello"))
            (Sample.upload Sample.big_exe None) Sample.empty_world).2 =
    Failure error details.
Proof.
  split; [reflexivity|]. split; [reflexivity|].
  apply (C3_filter_looks_for_the_words_anywhere (Sample.env 1000 7 (Ok "Hello"))
           (Sample.upload Sample.big_exe None) Sample.empty_world Sample.big_exe).
  - reflexivity.
  - left. reflexivity.
Defined.

(** ** Reading and deleting one record *)

Section OneRecord.

Variables (id : string) (w : World).

Lemma get_record_malformed :
  RecordModel.castObjectId id = None →
  get_record id w =
  (w, json 500 (Failure "Failed to fetch record" (Some (CastError id)))).
Proof. intros H. run_route. by rewrite H. Qed.

Lemma get_record_absent oid :
  RecordModel.castObjectId id = Some oid →
  collection w !! oid = None →
  get_record id w = (w, json 404 (Failure "Record not found" None)).
Proof. intros H Hnone. run_route. by rewrite H, Hnone. Qed.

Lemma get_record_present oid doc :
  RecordModel.castObjectId id = Some oid →
  collection w !! oid = Some doc →
  get_record id w = (w, json 200 (RecordFound (oid, doc))).
Proof. intros H Hsome. run_route. by rewrite H, Hsome. Qed.

Lemma delete_record_malformed :
  RecordModel.castObjectId id = None →
  delete_record id w =
  (w, json 500 (Failure "Failed to delete record" (Some (CastError id)))).
Proof. intros H. run_route. by rewrite H. Qed.

Lemma delete_record_absent oid :
  RecordModel.castObjectId id = Some oid →
  collection w !! oid = None →
  delete_record id w = (w, json 404 (Failure "Record not found" None)).
Proof. intros H Hnone. run_route. by rewrite H, Hnone. Qed.

(** The record is there: its image file is removed if it exists, then the
    record. *)
Lemma delete_record_present oid doc :
  RecordModel.castObjectId id = Some oid →
  collection w !! oid = Some doc →
  delete_record id w =
  (mkWorld (files w ∖ {[join_dirname (imageUrl doc)]}) (delete oid (collection w)),
   json 200 (Deleted "Record deleted successfully")).
Proof.
  intros H Hsome. run_route. rewrite H, Hsome. cbn.
  case_bool_decide as Hfile; cbn; [done|].
  do 3 f_equal. symmetry. apply difference_disjoint_L.
  by apply disjoint_singleton_r.
Qed.

End OneRecord.

(** C4, with NotFound for a malformed identifier, does not hold: [abc] is
    not a well-formed identifier, and both routes answer it with 500, not
    with 404. *)
Lemma C4_malformed_id_gets_500 :
  RecordModel.castObjectId "abc" = None ∧
  status (get_record "abc" Sample.one_record).2 = 500 ∧
  status (delete_record "abc" Sample.one_record).2 = 500 ∧
  status (get_record "abc" Sample.one_record).2 ≠ 404 ∧
  status (delete_record "abc" Sample.one_record).2 ≠ 404.
Proof. by vm_compute. Qed.

(** C4: a malformed identifier makes the query throw; the route's [catch]
    block answers with 500 and the cast error, the server does not crash and
    nothing is changed.  404 is the answer to a well-formed identifier that
    the collection does not hold. *)
Theorem C4_malformed_id_is_caught id w :
  (RecordModel.castObjectId id = None →
   get_record id w =
     (w, json 500 (Failure "Failed to fetch record" (Some (CastError id)))) ∧
   delete_record id w =
     (w, json 500 (Failure "Failed to delete record" (Some (CastError id))))) ∧
  (∀ oid, RecordModel.castObjectId id = Some oid → collection w !! oid = None →
   get_record id w = (w, json 404 (Failure "Record not found" None)) ∧
   delete_record id w = (w, json 404 (Failure "Record not found" None))).
Proof.
  split.
  - intros H. split; [by apply get_record_malformed | by apply delete_record_malformed].
  - intros oid H Hnone.
    split; [by eapply get_record_absent | by eapply delete_record_absent].
Qed.

Lemma C4_malformed_id_is_caught_witness :
  (RecordModel.castObjectId "abc" = None ∧
   get_record "abc" Sample.one_record =
     (Sample.one_record,
      json 500 (Failure "Failed to fetch record" (Some (CastError "abc")))) ∧
   delete_record "abc" Sample.one_record =
     (Sample.one_record,
      json 500 (Failure "Failed to delete record" (Some (CastError "abc"))))) ∧
  (RecordModel.castObjectId "0000000000000000000000ff" = Some 255 ∧
   collection Sample.one_record !! 255 = None ∧
   get_record "0000000000000000000000ff" Sample.one_record =
     (Sample.one_record, json 404 (Failure "Record not found" None)) ∧
   delete_record "0000000000000000000000ff" Sample.one_record =
     (Sample.one_record, json 404 (Failure "Record not found" None))).
Proof.
  split.
  - split; [reflexivity|].
    apply (proj1 (C4_malformed_id_is_caught "abc" Sample.one_record)).
    reflexivity.
  - split; [reflexivity|]. split; [reflexivity|].
    apply (proj2 (C4_malformed_id_is_caught "0000000000000000000000ff"
                    Sample.one_record) 255); reflexivity.
Defined.

(** C6: deleting a record that the collection holds succeeds, after which
    reading it answers 404; and whenever a delete has succeeded, deleting
    the same identifier again answers 404. *)
Theorem C6_delete_then_not_found id w :
  (∀ oid doc,
     RecordModel.castObjectId id = Some oid → collection w !! oid = Some doc →
     status (delete_record id w).2 = 200 ∧
     status (get_record id (delete_record id w).1).2 = 404) ∧
  (status (delete_record id w).2 = 200 →
   status (delete_record id (delete_record id w).1).2 = 404).
Proof.
  split.
  - intros oid doc H Hsome.
    rewrite (delete_record_present id w oid doc H Hsome). simpl.
    split; [done|].
    by rewrite (get_record_absent id _ oid H (lookup_delete_eq _ _)).
  - destruct (RecordModel.castObjectId id) as [oid|] eqn:H.
    + destruct (collection w !! oid) as [doc|] eqn:Hdoc.
      * rewrite (delete_record_present id w oid doc H Hdoc). simpl. intros _.
        by rewrite (delete_record_absent id _ oid H (lookup_delete_eq _ _)).
      * by rewrite (delete_record_absent id w oid H Hdoc).
    + by rewrite (delete_record_malformed id w H).
Qed.

Lemma C6_delete_then_not_found_witness :
  (RecordModel.castObjectId "000000000000000000000007" = Some 7 ∧
   is_Some (collection Sample.one_record !! 7) ∧
   status (delete_record "000000000000000000000007" Sample.one_record).2 = 200 ∧
   status (get_record "000000000000000000000007"
             (delete_record "000000000000000000000007" Sample.one_record).1).2 = 404) ∧
  (status (delete_record "000000000000000000000007" Sample.one_record).2 = 200 ∧
   status (delete_record "000000000000000000000007"
             (delete_record "000000000000000000000007" Sample.one_record).1).2 = 404).
Proof.
  split.
  - split; [reflexivity|]. split; [eexists; reflexivity|].
    eapply (proj1 (C6_delete_then_not_found "000000000000000000000007"
                     Sample.one_record) 7); reflexivity.
  - split; [reflexivity|].
    apply (proj2 (C6_delete_then_not_found "000000000000000000000007"
                    Sample.one_record)).
    reflexivity.
Defined.

(** ** The list route *)

Section ListRoute.

Variable w : World.

Lemma get_records_all :
  get_records None w =
  Some (json 200 (RecordList (RecordModel.sort_createdAt_desc (RecordModel.documents w))
                    (length (RecordModel.sort_createdAt_desc (RecordModel.documents w))))).
Proof. reflexivity. Qed.

(** An empty [search] is falsy: the query stays [{}]. *)
Lemma get_records_empty_search : get_records (Some ""%string) w = get_records None w.
Proof. reflexivity. Qed.


(** Whatever the query, an answer with a list counts that list. *)
Lemma get_records_count search code records count :
  get_records search w = Some (mkResponse code (RecordList records count)) →
  count = length records.
Proof.
  unfold get_records.
  destruct (RecordModel.find_sorted _ w) as [[found|e]|]; [|done..].
  unfold json. by intros [= _ <- <-].
Qed.

End ListRoute.

(** C7, with "strictly", does not hold: two uploads saved in the same
    millisecond have the same [createdAt], and the list that holds both is
    not strictly descending. *)
Lemma C7_equal_timestamps_are_not_strictly_descending :
  map (fun d : Doc => createdAt d.2) (listed (get_records None Sample.same_millisecond))
    = [1002; 1002] ∧
  ¬ Spec.strictly_descending (listed (get_records None Sample.same_millisecond)).
Proof.
  split; [by vm_compute|].
  intros H.
  assert (∃ a b, listed (get_records None Sample.same_millisecond) = [a; b] ∧
                 createdAt a.2 = 1002 ∧ createdAt b.2 = 1002)
    as (a & b & Heq & Ha & Hb) by (vm_compute; eauto).
  rewrite Heq in H. apply Sorted_inv in H as [_ H]. apply HdRel_inv in H. lia.
Qed.

(** C7: without a search argument the list route answers with all records
    of the collection in descending [createdAt] order, newest first; records
    with equal [createdAt] may follow one another. *)
Theorem C7_list_is_descending w :
  ∃ records,
    get_records None w = Some (json 200 (RecordList records (length records))) ∧
    Spec.descending records ∧
    records ≡ₚ map_to_list (collection w).
Proof.
  eexists. split; [apply get_records_all|]. split.
  - apply sort_descending.
  - apply sort_perm.
Qed.

(** C10: in every successful answer of the list route, with or without a
    search parameter, [count] is the number of elements of [records];
    whatever the search string is, whatever the store's engine makes of it
    and in whatever order the store returns the records. *)
Theorem C10_count_is_length engine order search w code records count :
  get_records_on engine order search w = mkResponse code (RecordList records count) →
  count = length records.
Proof.
  unfold get_records_on.
  destruct (Store.find_sorted engine order _ w) as [found|error]; [|done].
  unfold json. by intros [= _ <- <-].
Qed.

Lemma C10_count_is_length_witness :
  get_records_on Sample.engine RecordModel.sort_createdAt_desc
    (Some "hello"%string) Sample.one_record =
    mkResponse 200
      (RecordList [(7, mkRecord "/uploads/image-1000-42.png" "Hello" "eng" 1002)] 1) ∧
  1%nat = length [(7, mkRecord "/uploads/image-1000-42.png" "Hello" "eng" 1002)].
Proof.
  split; [reflexivity|].
  apply (C10_count_is_length Sample.engine RecordModel.sort_createdAt_desc
           (Some "hello"%string) Sample.one_record 200).
  reflexivity.
Defined.

(** C2: the search string is handed to the store as a regular expression,
    not as a literal.  With one record whose text is [Hello], the search [.]
    returns that record although its text has no full stop in it, and the
    search [*] is answered with 500 because it is not a valid pattern. *)
Theorem C2_search_is_read_as_a_pattern :
  map (fun d : Doc => extractedText d.2) (listed (get_records None Sample.one_record))
    = ["Hello"%string] ∧
  Spec.contains_ci "." "Hello" = false ∧
  Spec.literal_search "." (listed (get_records None Sample.one_record)) = [] ∧
  listed (get_records (Some "."%string) Sample.one_record) =
    listed (get_records None Sample.one_record) ∧
  get_records (Some "*"%string) Sample.one_record =
    Some (json 500 (Failure "Failed to fetch records" (Some (RegexError "*")))).
Proof. by vm_compute. Qed.

(** * Further properties of the routes *)

(** ** Uploads *)

Lemma join_dirname_uploads (name : string) :
  join_dirname ("/uploads/" +:+ name) = ("uploads/" +:+ name)%string.
Proof. reflexivity. Qed.

(** Every request either is answered with 201 and inserts one document under
    a fresh identifier, or is answered otherwise and leaves the collection
    alone. *)
Lemma post_upload_cases env req w :
  (status (post_upload env req w).2 = 201 ∧
   collection w !! new_id env = None ∧
   ∃ doc, collection (post_upload env req w).1 = <[new_id env := doc]> (collection w)) ∨
  (status (post_upload env req w).2 ≠ 201 ∧
   collection (post_upload env req w).1 = collection w ∧
   ∀ file, image req = Some file →
           path (stored env file) ∉ files w →
           path (stored env file) ∉ files (post_upload env req w).1).
Proof.
  assert (∀ (X : gset string) (p : string), p ∉ X ∖ {[p]}) as Hgone.
  { intros X p [_ Hn]%elem_of_difference. apply Hn. by apply elem_of_singleton. }
  destruct (image req) as [file|] eqn:Himg;
    [|right; rewrite upload_no_file by (by rewrite Himg); by split_and!].
  destruct (Str.is_empty (originalname file)) eqn:Hname;
    [right; rewrite upload_no_file by (by rewrite Himg);
     split_and!; [done..|]; by intros ? [= <-]|].
  destruct (fileFilter_cases file) as [Hf|Hf];
    [|right; rewrite (upload_filtered env w req file) by (done || congruence);
      split_and!; [done..|]; by intros ? [= <-]].
  destruct (N.le_gt_cases (size file) Multer.fileSize) as [Hsize|Hsize];
    [|right; rewrite (upload_too_large env w req file) by done;
      split_and!; [done..|]; intros ? [= <-] _; apply Hgone].
  destruct (sharp_toFile env) as [[]|e] eqn:Hsharp;
    [|right; rewrite (upload_preprocess_fails env w req file e) by done;
      split_and!; [done..|]; intros ? [= <-] _; apply Hgone].
  destruct (tesseract_recognize env) as [text|e] eqn:Hocr;
    [|right; rewrite (upload_recognition_fails env w req file e) by done;
      split_and!; [done..|]; intros ? [= <-] _; apply Hgone].
  destruct (Str.is_empty (Str.trim text)) eqn:Htext;
    [right; rewrite (upload_blank_text env w req file text) by done;
     split_and!; [done..|]; intros ? [= <-] _; apply Hgone|].
  destruct (collection w !! new_id env) as [doc|] eqn:Hid;
    [right; rewrite (upload_duplicate_id env w req file text doc) by done;
     split_and!; [done..|]; intros ? [= <-] _; apply Hgone|].
  left. rewrite (upload_saved env w req file text) by done. simpl.
  split_and!; [done..|]. eauto.
Qed.

(** X1: when the preprocessing step throws, the upload is answered with 500
    and the thrown error, no record is inserted, the raw upload is removed
    and no preprocessed file is written. *)
Theorem X1_preprocessing_failure env req w file e :
  image req = Some file →
  Str.is_empty (originalname file) = false →
  Multer.fileFilter file = Ok true →
  size file <= Multer.fileSize →
  sharp_toFile env = Throw e →
  (post_upload env req w).2 = json 500 (Failure "Failed to process image" (Some e)) ∧
  collection (post_upload env req w).1 = collection w ∧
  (path (stored env file) ∉ files (post_upload env req w).1) ∧
  (processedPath env ∈ files (post_upload env req w).1 ↔ processedPath env ∈ files w).
Proof.
  intros Himg Hname Hf Hsize Hsharp.
  rewrite (upload_preprocess_fails env w req file e) by done. simpl.
  pose proof (processed_not_raw env file) as Hne.
  split_and!; [done | done | |].
  - intros [_ Hn]%elem_of_difference. apply Hn. by apply elem_of_singleton.
  - rewrite elem_of_difference, elem_of_union, !elem_of_singleton. tauto.
Qed.

Lemma X1_preprocessing_failure_witness :
  (post_upload Sample.failed_preprocessing (Sample.upload (Sample.png 500) None)
     Sample.empty_world).2 =
    json 500 (Failure "Failed to process image"
                (Some (PlainError "unsupported image format"))) ∧
  collection (post_upload Sample.failed_preprocessing
                (Sample.upload (Sample.png 500) None) Sample.empty_world).1 = ∅ ∧
  (path (stored Sample.failed_preprocessing (Sample.png 500)) ∉
   files (post_upload Sample.failed_preprocessing
            (Sample.upload (Sample.png 500) None) Sample.empty_world).1) ∧
  (processedPath Sample.failed_preprocessing ∈
   files (post_upload Sample.failed_preprocessing
            (Sample.upload (Sample.png 500) None) Sample.empty_world).1 ↔
   processedPath Sample.failed_preprocessing ∈ files Sample.empty_world).
Proof.
  apply (X1_preprocessing_failure Sample.failed_preprocessing
           (Sample.upload (Sample.png 500) None) Sample.empty_world (Sample.png 500)
           (PlainError "unsupported image format")).
  - reflexivity.
  - reflexivity.
  - reflexivity.
  - vm_compute. discriminate.
  - reflexivity.
Defined.

(** X2: after an upload that is answered with 201 the raw upload is in the
    storage directory and is the file the record's [imageUrl] names, the
    preprocessed file is gone, and every other file is still there. *)
Theorem X2_saved_upload_keeps_its_image env req w :
  status (post_upload env req w).2 = 201 →
  ∃ file doc,
    image req = Some file ∧
    collection (post_upload env req w).1 !! new_id env = Some doc ∧
    join_dirname (imageUrl doc) = path (stored env file) ∧
    (path (stored env file) ∈ files (post_upload env req w).1) ∧
    (processedPath env ∉ files (post_upload env req w).1) ∧
    (∀ p, p ∈ files w → p ≠ processedPath env → p ∈ files (post_upload env req w).1).
Proof.
  intros H.
  destruct (upload_created_inv env w req H)
    as (file & text & Himg & Hname & Hf & Hsize & Hsharp & Hocr & Htext & Hid).
  rewrite (upload_saved env w req file text) by done. simpl.
  pose proof (processed_not_raw env file) as Hne.
  exists file. eexists. split_and!; [done | apply lookup_insert_eq | done | | |].
  - rewrite elem_of_difference, !elem_of_union, !elem_of_singleton.
    split; [tauto | intros Heq; by apply Hne].
  - intros [_ Hn]%elem_of_difference. apply Hn. by apply elem_of_singleton.
  - intros p Hp Hpne.
    rewrite elem_of_difference, !elem_of_union, !elem_of_singleton. tauto.
Qed.

Lemma X2_saved_upload_keeps_its_image_witness :
  ∃ file doc,
    image (Sample.upload (Sample.png 500) (Some "eng"%string)) = Some file ∧
    collection (post_upload (Sample.env 1000 7 (Ok " Hello "))
                  (Sample.upload (Sample.png 500) (Some "eng"%string))
                  Sample.empty_world).1 !! 7 = Some doc ∧
    join_dirname (imageUrl doc) = path (stored (Sample.env 1000 7 (Ok " Hello ")) file) ∧
    (path (stored (Sample.env 1000 7 (Ok " Hello ")) file) ∈
     files (post_upload (Sample.env 1000 7 (Ok " Hello "))
              (Sample.upload (Sample.png 500) (Some "eng"%string))
              Sample.empty_world).1) ∧
    (processedPath (Sample.env 1000 7 (Ok " Hello ")) ∉
     files (post_upload (Sample.env 1000 7 (Ok " Hello "))
              (Sample.upload (Sample.png 500) (Some "eng"%string))
              Sample.empty_world).1) ∧
    (∀ p, p ∈ files Sample.empty_world →
          p ≠ processedPath (Sample.env 1000 7 (Ok " Hello ")) →
          p ∈ files (post_upload (Sample.env 1000 7 (Ok " Hello "))
                       (Sample.upload (Sample.png 500) (Some "eng"%string))
                       Sample.empty_world).1).
Proof.
  apply (X2_saved_upload_keeps_its_image (Sample.env 1000 7 (Ok " Hello "))
           (Sample.upload (Sample.png 500) (Some "eng"%string)) Sample.empty_world).
  reflexivity.
Defined.

(** X3: an upload that is not answered with 201 inserts no record, and the
    file name generated for its raw upload, if unused before, names no file
    afterwards. *)
Theorem X3_failed_upload_leaves_nothing env req w :
  status (post_upload env req w).2 ≠ 201 →
  collection (post_upload env req w).1 = collection w ∧
  ∀ file, image req = Some file →
          path (stored env file) ∉ files w →
          path (stored env file) ∉ files (post_upload env req w).1.
Proof.
  intros Hfail. by destruct (post_upload_cases env req w) as [[? _]|[_ ?]].
Qed.

Lemma X3_failed_upload_leaves_nothing_witness :
  status Sample.blank_page.2 ≠ 201 ∧
  collection Sample.blank_page.1 = collection Sample.empty_world ∧
  ∀ file, image (Sample.upload (Sample.png 500) (Some "eng"%string)) = Some file →
          path (stored (Sample.env 1000 7 (Ok "  ")) file) ∉ files Sample.empty_world →
          path (stored (Sample.env 1000 7 (Ok "  ")) file) ∉ files Sample.blank_page.1.
Proof.
  split; [by vm_compute|].
  apply (X3_failed_upload_leaves_nothing (Sample.env 1000 7 (Ok "  "))
           (Sample.upload (Sample.png 500) (Some "eng"%string)) Sample.empty_world).
  by vm_compute.
Defined.

(** X4: no upload request, whatever its outcome, removes or changes a
    record that the collection already holds; a new identifier that is
    already taken does not overwrite. *)
Theorem X4_upload_preserves_records env req w oid doc :
  collection w !! oid = Some doc →
  collection (post_upload env req w).1 !! oid = Some doc.
Proof.
  intros Hdoc.
  destruct (post_upload_cases env req w) as [(_ & Hfresh & doc' & ->)|(_ & -> & _)];
    [|done].
  rewrite lookup_insert_ne; [done|]. intros <-. congruence.
Qed.

Lemma X4_upload_preserves_records_witness :
  collection Sample.one_record !! 7 =
    Some (mkRecord "/uploads/image-1000-42.png" "Hello" "eng" 1002) ∧
  collection (post_upload (Sample.env 2000 7 (Ok "Other"))
                (Sample.upload (Sample.png 600) None) Sample.one_record).1 !! 7 =
    Some (mkRecord "/uploads/image-1000-42.png" "Hello" "eng" 1002).
Proof.
  split; [reflexivity|].
  apply (X4_upload_preserves_records (Sample.env 2000 7 (Ok "Other"))
           (Sample.upload (Sample.png 600) None) Sample.one_record 7).
  reflexivity.
Defined.

(** X5: an upload is answered with 201 only if its part has a file name,
    passes the type filter and is at most 10 485 760 bytes long. *)
Theorem X5_saved_upload_was_validated env req w :
  status (post_upload env req w).2 = 201 →
  ∃ file,
    image req = Some file ∧
    originalname file ≠ ""%string ∧
    Spec.mentions_allowed (Str.toLowerCase (Path.extname (originalname file))) = true ∧
    Spec.mentions_allowed (mimetype file) = true ∧
    size file <= 10485760.
Proof.
  intros H.
  destruct (upload_created_inv env w req H)
    as (file & text & Himg & Hname & Hf & Hsize & _).
  apply fileFilter_spec in Hf as [Hext Hmime].
  exists file. split_and!; [done | | done | done | exact Hsize].
  intros Heq. by rewrite Heq in Hname.
Qed.

Lemma X5_saved_upload_was_validated_witness :
  ∃ file,
    image (Sample.upload (Sample.png 500) None) = Some file ∧
    originalname file ≠ ""%string ∧
    Spec.mentions_allowed (Str.toLowerCase (Path.extname (originalname file))) = true ∧
    Spec.mentions_allowed (mimetype file) = true ∧
    size file <= 10485760.
Proof.
  apply (X5_saved_upload_was_validated (Sample.env 1000 7 (Ok "Hello"))
           (Sample.upload (Sample.png 500) None) Sample.empty_world).
  reflexivity.
Defined.

(** ** One record: save, read, delete *)

(** X6: the record of a 201 answer can be read back: a route parameter that
    names the new identifier gets 200 with the very document the upload
    answered with. *)
Theorem X6_saved_record_is_read_back env req w id :
  status (post_upload env req w).2 = 201 →
  RecordModel.castObjectId id = Some (new_id env) →
  ∃ record,
    body (post_upload env req w).2 =
      UploadSaved "Image processed and record saved successfully" record ∧
    get_record id (post_upload env req w).1 =
      ((post_upload env req w).1, json 200 (RecordFound record)).
Proof.
  intros H Hid.
  destruct (upload_created env req w H) as (file & text & _ & _ & _ & Hbody & Hcol).
  eexists. split; [exact Hbody|].
  apply get_record_present; [done|]. rewrite Hcol. apply lookup_insert_eq.
Qed.

Lemma X6_saved_record_is_read_back_witness :
  ∃ record,
    body (post_upload (Sample.env 1000 7 (Ok " Hello "))
            (Sample.upload (Sample.png 500) None) Sample.empty_world).2 =
      UploadSaved "Image processed and record saved successfully" record ∧
    get_record "000000000000000000000007"
      (post_upload (Sample.env 1000 7 (Ok " Hello "))
         (Sample.upload (Sample.png 500) None) Sample.empty_world).1 =
      ((post_upload (Sample.env 1000 7 (Ok " Hello "))
          (Sample.upload (Sample.png 500) None) Sample.empty_world).1,
       json 200 (RecordFound record)).
Proof.
  apply (X6_saved_record_is_read_back (Sample.env 1000 7 (Ok " Hello "))
           (Sample.upload (Sample.png 500) None) Sample.empty_world
           "000000000000000000000007"); reflexivity.
Defined.

(** X7: saving an upload and then deleting its record undoes the upload:
    when the two generated file names were unused before, the collection
    and the storage directory are back to what they were. *)
Theorem X7_upload_then_delete_restores env req w id file :
  status (post_upload env req w).2 = 201 →
  RecordModel.castObjectId id = Some (new_id env) →
  image req = Some file →
  path (stored env file) ∉ files w →
  processedPath env ∉ files w →
  delete_record id (post_upload env req w).1 =
    (w, json 200 (Deleted "Record deleted successfully")).
Proof.
  intros H Hid Himg Hraw Hproc.
  destruct (upload_created_inv env w req H)
    as (file' & text & Himg' & Hname & Hf & Hsize & Hsharp & Hocr & Htext & Hfresh).
  assert (file' = file) as -> by congruence.
  rewrite (upload_saved env w req file text) by done.
  erewrite delete_record_present; [|done|apply lookup_insert_eq].
  simpl.
  change (String "u" ("ploads/" +:+ Multer.storage_filename env file))
    with (path (stored env file)).
  change (Multer.destination +:+ Multer.storage_filename env file)%string
    with (path (stored env file)).
  rewrite delete_insert_eq, (delete_id _ _ Hfresh).
  destruct w as [F C]. cbn [files collection] in *. do 2 f_equal.
  apply set_eq. intros p.
  rewrite !elem_of_difference, !elem_of_union, !elem_of_singleton.
  split; [tauto|]. intros Hp.
  split_and!; [tauto | by intros -> | by intros ->].
Qed.

Lemma X7_upload_then_delete_restores_witness :
  delete_record "000000000000000000000007"
    (post_upload (Sample.env 1000 7 (Ok " Hello "))
       (Sample.upload (Sample.png 500) None) Sample.empty_world).1 =
    (Sample.empty_world, json 200 (Deleted "Record deleted successfully")).
Proof.
  apply (X7_upload_then_delete_restores (Sample.env 1000 7 (Ok " Hello "))
           (Sample.upload (Sample.png 500) None) Sample.empty_world
           "000000000000000000000007" (Sample.png 500));
    try reflexivity; apply not_elem_of_empty.
Defined.

(** X8: deleting a record that the collection holds removes that record and
    the file its [imageUrl] names; when that file does not exist the delete
    succeeds all the same and no file is touched. *)
Theorem X8_delete_removes_record_and_image id w oid doc :
  RecordModel.castObjectId id = Some oid →
  collection w !! oid = Some doc →
  status (delete_record id w).2 = 200 ∧
  collection (delete_record id w).1 = delete oid (collection w) ∧
  files (delete_record id w).1 = files w ∖ {[join_dirname (imageUrl doc)]} ∧
  (join_dirname (imageUrl doc) ∉ files w → files (delete_record id w).1 = files w).
Proof.
  intros Hid Hdoc. rewrite (delete_record_present id w oid doc Hid Hdoc). simpl.
  split_and!; [done..|].
  intros Hmissing. apply difference_disjoint_L. by apply disjoint_singleton_r.
Qed.

Lemma X8_delete_removes_record_and_image_witness :
  status (delete_record "000000000000000000000007" Sample.one_record).2 = 200 ∧
  collection (delete_record "000000000000000000000007" Sample.one_record).1 =
    delete 7 (collection Sample.one_record) ∧
  files (delete_record "000000000000000000000007" Sample.one_record).1 =
    files Sample.one_record ∖
      {[join_dirname
          (imageUrl (mkRecord "/uploads/image-1000-42.png" "Hello" "eng" 1002))]} ∧
  (join_dirname (imageUrl (mkRecord "/uploads/image-1000-42.png" "Hello" "eng" 1002))
     ∉ files Sample.one_record →
   files (delete_record "000000000000000000000007" Sample.one_record).1 =
     files Sample.one_record).
Proof.
  apply (X8_delete_removes_record_and_image "000000000000000000000007"
           Sample.one_record 7); reflexivity.
Defined.

(** X9: a delete request touches nothing but the record it names: every
    other identifier is held, or not held, with the same document as
    before, and no file is created. *)
Theorem X9_delete_leaves_other_records id w other :
  RecordModel.castObjectId id ≠ Some other →
  collection (delete_record id w).1 !! other = collection w !! other ∧
  files (delete_record id w).1 ⊆ files w.
Proof.
  intros Hother.
  destruct (RecordModel.castObjectId id) as [oid|] eqn:Hid;
    [|by rewrite (delete_record_malformed id w Hid)].
  destruct (collection w !! oid) as [doc|] eqn:Hdoc;
    [|by rewrite (delete_record_absent id w oid Hid Hdoc)].
  rewrite (delete_record_present id w oid doc Hid Hdoc). simpl. split.
  - apply lookup_delete_ne. congruence.
  - apply subseteq_difference_l. done.
Qed.

Lemma X9_delete_leaves_other_records_witness :
  RecordModel.castObjectId "000000000000000000000007" ≠ Some 8 ∧
  collection (delete_record "000000000000000000000007" Sample.same_millisecond).1 !! 8
    = collection Sample.same_millisecond !! 8 ∧
  files (delete_record "000000000000000000000007" Sample.same_millisecond).1
    ⊆ files Sample.same_millisecond.
Proof.
  split; [by vm_compute|].
  apply (X9_delete_leaves_other_records "000000000000000000000007"
           Sample.same_millisecond 8).
  by vm_compute.
Defined.

(** X10: reading one record never changes the collection or the files, and
    neither does a delete request that is not answered with 200. *)
Theorem X10_reads_and_failed_deletes_change_nothing id w :
  (get_record id w).1 = w ∧
  (status (delete_record id w).2 ≠ 200 → (delete_record id w).1 = w).
Proof.
  destruct (RecordModel.castObjectId id) as [oid|] eqn:Hid.
  - destruct (collection w !! oid) as [doc|] eqn:Hdoc.
    + rewrite (get_record_present id w oid doc Hid Hdoc),
        (delete_record_present id w oid doc Hid Hdoc). by split.
    + by rewrite (get_record_absent id w oid Hid Hdoc),
        (delete_record_absent id w oid Hid Hdoc).
  - by rewrite (get_record_malformed id w Hid), (delete_record_malformed id w Hid).
Qed.

(** ** More on the list route *)

Lemma filter_sublist {A : Type} (keep : A → bool) (l : list A) :
  sublist (List.filter keep l) l.
Proof.
  induction l as [|a l IH]; simpl; [constructor|].
  destruct (keep a); by constructor.
Qed.

(** The head of a descending list is at least as new as every element. *)
Lemma descending_head d ds x :
  Spec.descending (d :: ds) → x ∈ d :: ds → createdAt x.2 <= createdAt d.2.
Proof.
  intros Hs [->|Hx]%elem_of_cons; [done|].
  apply descending_bound in Hs. rewrite Forall_forall in Hs. by apply Hs.
Qed.

(** X12: a record that is saved with a later [createdAt] than every record
    of the collection is the first element of the unfiltered list. *)
Theorem X12_newest_upload_is_listed_first env req w :
  status (post_upload env req w).2 = 201 →
  (∀ oid doc, collection w !! oid = Some doc → createdAt doc < created_now env) →
  ∃ record rest,
    body (post_upload env req w).2 =
      UploadSaved "Image processed and record saved successfully" record ∧
    listed (get_records None (post_upload env req w).1) = record :: rest.
Proof.
  intros H Hnewer.
  destruct (upload_created_inv env w req H) as (_ & _ & _ & _ & _ & _ & _ & _ & _ & Hid).
  destruct (upload_created env req w H) as (file & text & _ & _ & _ & Hbody & Hcol).
  cbv zeta in Hbody, Hcol.
  set (doc := mkRecord _ _ _ _) in Hbody, Hcol.
  rewrite get_records_all. simpl. unfold RecordModel.documents. rewrite Hcol.
  pose proof (sort_descending (map_to_list (<[new_id env:=doc]> (collection w)))) as Hs.
  assert (RecordModel.sort_createdAt_desc
            (map_to_list (<[new_id env:=doc]> (collection w)))
          ≡ₚ (new_id env, doc) :: map_to_list (collection w)) as Hp.
  { etrans; [apply sort_perm | by apply map_to_list_insert]. }
  destruct (RecordModel.sort_createdAt_desc _) as [|d ds] eqn:Hsorted.
  { by apply Permutation_nil_cons in Hp. }
  exists (new_id env, doc), ds. split; [done|]. f_equal.
  assert (d ∈ (new_id env, doc) :: map_to_list (collection w)) as Hd.
  { rewrite <- Hp. apply list_elem_of_here. }
  apply elem_of_cons in Hd as [->|Hd]; [done|].
  destruct d as [oid old]. apply elem_of_map_to_list in Hd.
  assert ((new_id env, doc) ∈ (oid, old) :: ds) as Hnew.
  { rewrite Hp. apply list_elem_of_here. }
  pose proof (descending_head _ _ _ Hs Hnew) as Hle.
  pose proof (Hnewer oid old Hd) as Hlt. simpl in Hle. lia.
Qed.

Lemma X12_newest_upload_is_listed_first_witness :
  ∃ record rest,
    body (post_upload (Sample.env 2000 9 (Ok "Later"))
            (Sample.upload (Sample.png 600) None) Sample.one_record).2 =
      UploadSaved "Image processed and record saved successfully" record ∧
    listed (get_records None
              (post_upload (Sample.env 2000 9 (Ok "Later"))
                 (Sample.upload (Sample.png 600) None) Sample.one_record).1)
      = record :: rest.
Proof.
  apply (X12_newest_upload_is_listed_first (Sample.env 2000 9 (Ok "Later"))
           (Sample.upload (Sample.png 600) None) Sample.one_record).
  - reflexivity.
  - intros oid doc Hdoc.
    assert (oid = 7) as ->.
    { destruct (decide (oid = 7)) as [|Hne]; [done|].
      change (collection Sample.one_record) with
        (<[7 := mkRecord "/uploads/image-1000-42.png" "Hello" "eng" 1002]>
           (∅ : gmap ObjectId RecordDocument)) in Hdoc.
      rewrite lookup_insert_ne, lookup_empty in Hdoc by done. discriminate. }
    change (collection Sample.one_record !! 7) with
      (Some (mkRecord "/uploads/image-1000-42.png" "Hello" "eng" 1002)) in Hdoc.
    injection Hdoc as <-. reflexivity.
Defined.

(** ** Case and white space *)

Lemma chars_of_chars (cs : list ascii) : Str.chars (Str.of_chars cs) = cs.
Proof. apply list_ascii_of_string_of_list_ascii. Qed.

Lemma of_chars_chars (s : string) : Str.of_chars (Str.chars s) = s.
Proof. apply string_of_list_ascii_of_string. Qed.

Lemma chars_app (a b : string) : Str.chars (a +:+ b) = Str.chars a ++ Str.chars b.
Proof. induction a as [|c a IH]; simpl; [done|]. by rewrite <- IH. Qed.

Lemma lower_char_idem (c : ascii) : Str.lower_char (Str.lower_char c) = Str.lower_char c.
Proof. by destruct c as [[] [] [] [] [] [] [] []]. Qed.


Lemma lower_idem (cs : list ascii) : Str.lower (Str.lower cs) = Str.lower cs.
Proof.
  unfold Str.lower. rewrite map_map. apply map_ext. intros c. apply lower_char_idem.
Qed.







Lemma trim_start_head (cs : list ascii) (c : ascii) :
  head (Str.trim_start cs) = Some c → Str.is_space c = false.
Proof.
  induction cs as [|a cs IH]; simpl; [done|].
  destruct (Str.is_space a) eqn:Ha; [done|]. simpl. by intros [= <-].
Qed.

Lemma trim_start_last (cs : list ascii) (c : ascii) :
  last cs = Some c → Str.is_space c = false → last (Str.trim_start cs) = Some c.
Proof.
  intros Hlast Hc. induction cs as [|a cs IH]; simpl; [done|].
  destruct (Str.is_space a) eqn:Ha; [|done].
  destruct cs as [|b cs]; [simpl in Hlast; congruence|]. by apply IH.
Qed.

Lemma last_rev {A : Type} (l : list A) : last (rev l) = head l.
Proof. destruct l as [|a l]; simpl; [done|]. apply last_snoc. Qed.

Lemma head_rev {A : Type} (l : list A) : head (rev l) = last l.
Proof.
  induction l as [|a l _] using rev_ind; [done|].
  by rewrite rev_unit, last_snoc.
Qed.

(** What [trim] returns neither begins nor ends with white space. *)
Lemma trim_chars_edges (cs : list ascii) (c : ascii) :
  head (Str.trim_chars cs) = Some c ∨ last (Str.trim_chars cs) = Some c →
  Str.is_space c = false.
Proof.
  unfold Str.trim_chars. rewrite head_rev, last_rev. intros [Hc|Hc].
  - destruct (head (Str.trim_start cs)) as [a|] eqn:Ha.
    + pose proof (trim_start_head cs a Ha) as Hspace.
      rewrite <- last_rev in Ha.
      rewrite (trim_start_last _ a Ha Hspace) in Hc. congruence.
    + destruct (Str.trim_start cs); [done|discriminate].
  - by apply trim_start_head in Hc.
Qed.

(** X15: the text a saved record stores neither begins nor ends with a
    white-space character. *)
Theorem X15_stored_text_is_trimmed env req w c :
  status (post_upload env req w).2 = 201 →
  ∃ doc,
    collection (post_upload env req w).1 !! new_id env = Some doc ∧
    (head (Str.chars (extractedText doc)) = Some c ∨
     last (Str.chars (extractedText doc)) = Some c →
     Str.is_space c = false).
Proof.
  intros H.
  destruct (upload_created env req w H) as (file & text & _ & _ & _ & _ & Hcol).
  eexists. split; [by rewrite Hcol, lookup_insert_eq|].
  simpl. unfold Str.trim. rewrite chars_of_chars. apply trim_chars_edges.
Qed.

Lemma X15_stored_text_is_trimmed_witness :
  ∃ doc,
    collection (post_upload (Sample.env 1000 7 (Ok " Hello "))
                  (Sample.upload (Sample.png 500) None) Sample.empty_world).1 !! 7
      = Some doc ∧
    (head (Str.chars (extractedText doc)) = Some "H"%char ∨
     last (Str.chars (extractedText doc)) = Some "H"%char →
     Str.is_space "H" = false).
Proof.
  apply (X15_stored_text_is_trimmed (Sample.env 1000 7 (Ok " Hello "))
           (Sample.upload (Sample.png 500) None) Sample.empty_world "H"%char).
  reflexivity.
Defined.

(** ** The browser's copy of the list *)

Lemma filter_perm {A : Type} (keep : A → bool) (l1 l2 : list A) :
  l1 ≡ₚ l2 → List.filter keep l1 ≡ₚ List.filter keep l2.
Proof.
  induction 1 as [|a l1 l2 _ IH|a b l|l1 l2 l3 _ IH1 _ IH2]; simpl.
  - done.
  - destruct (keep a); by rewrite IH.
  - destruct (keep a), (keep b); (done || apply perm_swap).
  - by etrans.
Qed.

Lemma filter_all {A : Type} (keep : A → bool) (l : list A) :
  (∀ a, a ∈ l → keep a = true) → List.filter keep l = l.
Proof.
  induction l as [|a l IH]; intros Hall; simpl; [done|].
  rewrite (Hall a) by apply list_elem_of_here.
  f_equal. apply IH. intros b Hb. apply Hall. by apply list_elem_of_further.
Qed.

(** X16: after a delete that succeeded, the list the [Records] page keeps
    ([handleDelete] drops the deleted identifier from its copy) has exactly
    the records of the list the server would now return, and is still in
    descending order. *)
Theorem X16_client_removal_agrees_with_server id w oid doc :
  RecordModel.castObjectId id = Some oid →
  collection w !! oid = Some doc →
  Client.removeRecord oid (listed (get_records None w)) ≡ₚ
    listed (get_records None (delete_record id w).1) ∧
  Spec.descending (Client.removeRecord oid (listed (get_records None w))).
Proof.
  intros Hid Hdoc.
  rewrite (delete_record_present id w oid doc Hid Hdoc), !get_records_all. simpl.
  unfold Client.removeRecord, RecordModel.documents. simpl.
  rewrite filter_sort. split; [|apply sort_descending].
  rewrite !sort_perm.
  rewrite (filter_perm _ _ _ (symmetry (map_to_list_delete _ _ _ Hdoc))).
  simpl. rewrite N.eqb_refl. simpl.
  rewrite filter_all; [done|].
  intros [oid' doc'] Hin%elem_of_map_to_list. simpl.
  apply negb_true_iff, N.eqb_neq. intros ->.
  by rewrite lookup_delete_eq in Hin.
Qed.

Lemma X16_client_removal_agrees_with_server_witness :
  Client.removeRecord 7 (listed (get_records None Sample.same_millisecond)) ≡ₚ
    listed (get_records None
              (delete_record "000000000000000000000007" Sample.same_millisecond).1) ∧
  Spec.descending
    (Client.removeRecord 7 (listed (get_records None Sample.same_millisecond))).
Proof.
  eapply (X16_client_removal_agrees_with_server "000000000000000000000007"
            Sample.same_millisecond 7); reflexivity.
Defined.

(** X17: the text a record card shows is never empty and never longer than
    153 characters; a stored text of 1 to 150 characters is shown as it
    is. *)
Theorem X17_card_text_is_bounded (text : string) :
  Client.cardText text ≠ ""%string ∧
  (length (Str.chars (Client.cardText text)) <= 153)%nat ∧
  (Str.is_empty text = false → (length (Str.chars text) <= 150)%nat →
   Client.cardText text = text).
Proof.
  unfold Client.cardText.
  destruct (Nat.ltb 150 (length (Str.chars text))) eqn:Hlong.
  - apply Nat.ltb_lt in Hlong. split_and!.
    + intros Heq. apply (f_equal (fun s => length (Str.chars s))) in Heq.
      rewrite chars_app in Heq. unfold Client.substring in Heq.
      rewrite length_app, chars_of_chars in Heq. simpl in Heq.
      rewrite Nat.add_comm in Heq. discriminate.
    + rewrite chars_app. unfold Client.substring.
      rewrite length_app, chars_of_chars, length_take, length_drop.
      change (length (Str.chars "...")) with 3%nat. lia.
    + intros _ Hshort. lia.
  - destruct text as [|c text].
    + split_and!; [done | by apply Nat.leb_le | done].
    + apply Nat.ltb_ge in Hlong. cbn [Str.is_empty].
      split_and!; [done | lia | done].
Qed.

(** ** Names of stored files *)

Section Extname.

Local Open Scope Z_scope.

Lemma is_dot_eq (c : ascii) : Regex.is_dot c = true → c = Scan.dot.
Proof.
  unfold Regex.is_dot, Str.code, Scan.dot. intros H%N.eqb_eq.
  by rewrite <- H, ascii_N_embedding.
Qed.

Lemma name_char_iff (c : ascii) :
  Scan.name_char c = true ↔ Path.is_slash c = false ∧ Regex.is_dot c = false.
Proof.
  unfold Scan.name_char. rewrite andb_true_iff, !negb_true_iff. done.
Qed.

Lemma scan_inv_final cs rev_path scanned sd e ms :
  cs = rev rev_path ++ scanned →
  Scan.inv rev_path scanned sd e ms →
  Scan.final cs sd e.
Proof.
  intros Hcs [He Hset]. unfold Scan.final.
  destruct (decide (sd = -1)) as [|Hsd]; [by left|].
  destruct (decide (e = -1)) as [|Hend]; [by right; left|].
  right; right.
  destruct (Hset Hend) as (_ & body & tail & Hscanned & Hpos & Hslash & _ & Hdot).
  destruct (Hdot Hsd) as (pre & r & Hbody & Hsdpos & Hr).
  exists (rev rev_path ++ pre), r, tail. split_and!.
  - rewrite Hcs, Hscanned, Hbody. by rewrite <- !app_assoc.
  - rewrite length_app, length_rev. lia.
  - rewrite Hpos, Hbody, !length_app, length_rev. simpl. lia.
  - rewrite Hbody in Hslash. apply Forall_app in Hslash as [_ Hslash].
    apply Forall_cons in Hslash as [_ Hslash].
    rewrite Forall_forall in Hslash, Hr |- *.
    intros c Hc. apply name_char_iff. split; [by apply Hslash | by apply Hr].
Qed.

Lemma extname_loop_shape (cs : list ascii) (rev_path : list ascii) :
  ∀ scanned st i,
    cs = rev rev_path ++ scanned →
    i = Z.of_nat (length rev_path) - 1 →
    Scan.inv rev_path scanned (Path.startDot st) (Path.end_ st) (Path.matchedSlash st) →
    Scan.final cs
      (Path.startDot (Path.extname_loop rev_path i st))
      (Path.end_ (Path.extname_loop rev_path i st)).
Proof.
  induction rev_path as [|c rest IH]; intros scanned st i Hcs Hi Hinv.
  { simpl. by eapply scan_inv_final. }
  destruct st as [sd sp e ms pds]. simpl in Hinv.
  assert (cs = rev rest ++ c :: scanned) as Hcs'.
  { rewrite Hcs. simpl. by rewrite <- app_assoc. }
  assert (i - 1 = Z.of_nat (length rest) - 1) as Hi'.
  { rewrite Hi. simpl length. lia. }
  simpl Path.extname_loop. destruct (Path.is_slash c) eqn:Hslash.
  - destruct ms; simpl.
    + apply (IH (c :: scanned)); [done..|]. simpl.
      destruct Hinv as [He Hset].
      destruct (decide (e = -1)) as [Hend|Hend]; [|by destruct (Hset Hend)].
      split; [done|]. intros Hne. by destruct Hne.
    + exact (scan_inv_final cs (c :: rest) scanned sd e false Hcs Hinv).
  - destruct Hinv as [He Hset].
    destruct (e =? -1) eqn:Hend; simpl.
    + apply Z.eqb_eq in Hend. pose proof (He Hend) as Hsd. subst sd e.
      destruct (Regex.is_dot c) eqn:Hdot; simpl.
      * apply (IH (c :: scanned)); [done..|]. simpl.
        split; [lia|]. intros _. split; [done|].
        exists [c], scanned. split_and!; [done | simpl; lia | by repeat constructor | |].
        -- intros Habs. simpl length in Habs. lia.
        -- intros _. exists [], []. apply is_dot_eq in Hdot as ->.
           split_and!; [done | simpl; lia | constructor].
      * apply (IH (c :: scanned)); [done..|]. simpl.
        split; [lia|]. intros _. split; [done|].
        exists [c], scanned.
        split_and!; [done | simpl; lia | by repeat constructor | by repeat constructor |].
        intros Habs. by destruct Habs.
    + apply Z.eqb_neq in Hend.
      destruct (Hset Hend) as (-> & body & tail & Hscanned & Hpos & Hbslash & Hnodot & Hdots).
      assert (Forall (fun c => Path.is_slash c = false) (c :: body)) as Hslash'
        by (by constructor).
      destruct (Regex.is_dot c) eqn:Hdot; simpl.
      * destruct (sd =? -1) eqn:Hsd; simpl.
        -- apply Z.eqb_eq in Hsd.
           apply (IH (c :: scanned)); [done..|]. simpl.
           split; [done|]. intros _. split; [done|].
           exists (c :: body), tail.
           split_and!; [by rewrite Hscanned | simpl; lia | done | |].
           ++ intros Habs. simpl length in Habs. lia.
           ++ intros _. exists [], body. apply is_dot_eq in Hdot as ->.
              split_and!; [done | simpl; lia | by apply Hnodot].
        -- apply Z.eqb_neq in Hsd.
           destruct (Hdots Hsd) as (pre & r & Hbody & Hsdpos & Hr).
           assert (Scan.inv rest (c :: scanned) sd e false) as Hnext.
           { split; [done|]. intros _. split; [done|].
             exists (c :: body), tail.
             split_and!; [by rewrite Hscanned | simpl; lia | done | done |].
             intros _. exists (c :: pre), r.
             split_and!; [by rewrite Hbody | simpl; lia | done]. }
           destruct (negb (pds =? 1)); simpl; by apply (IH (c :: scanned)).
      * assert (Scan.inv rest (c :: scanned) sd e false) as Hnext.
        { split; [done|]. intros _. split; [done|].
          exists (c :: body), tail.
          split_and!; [by rewrite Hscanned | simpl; lia | done | |].
          - intros Hsd. constructor; [done | by apply Hnodot].
          - intros Hsd. destruct (Hdots Hsd) as (pre & r & Hbody & Hsdpos & Hr).
            exists (c :: pre), r.
            split_and!; [by rewrite Hbody | simpl; lia | done]. }
        destruct (negb (sd =? -1)); simpl; by apply (IH (c :: scanned)).
Qed.

(** What [extname] returns is empty, or a dot followed by characters that
    are neither dots nor slashes. *)
Lemma extname_shape (p : string) :
  Path.extname p = ""%string ∨
  ∃ r, Str.chars (Path.extname p) = Scan.dot :: r ∧
       Forall (fun c => Scan.name_char c = true) r.
Proof.
  unfold Path.extname.
  set (cs := Str.chars p).
  pose proof (extname_loop_shape cs (rev cs) [] Path.scan_init
                (Z.of_nat (length cs) - 1)) as Hfinal.
  set (st := Path.extname_loop _ _ _) in *.
  destruct (_ || _) eqn:Hcond; [by left|]. right.
  apply orb_false_iff in Hcond as [Hcond _].
  apply orb_false_iff in Hcond as [Hcond _].
  apply orb_false_iff in Hcond as [Hsd Hend].
  apply Z.eqb_neq in Hsd, Hend.
  destruct Hfinal as [?|[?|(front & r & tail & Hcs & Hsdpos & Hendpos & Hr)]];
    [by rewrite rev_involutive, app_nil_r | by rewrite length_rev
    | split; [done|]; intros Habs; by destruct Habs | done | done |].
  exists r. split; [|done].
  rewrite chars_of_chars. unfold Path.slice. rewrite Hsdpos, Hendpos, Hcs.
  replace (Z.to_nat (Z.of_nat (length front + 1 + length r) - Z.of_nat (length front)))
    with (S (length r)) by lia.
  rewrite Nat2Z.id, drop_app_length. simpl. f_equal. by rewrite take_app_length.
Qed.

Lemma name_char_step (c : ascii) :
  Scan.name_char c = true → Path.is_slash c = false ∧ Regex.is_dot c = false.
Proof. apply name_char_iff. Qed.

(** Name characters scanned before any dot, once [end] is set, change
    nothing. *)
Lemma loop_names_before_dot seg rest i sp e ms pds :
  e ≠ -1 →
  Forall (fun c => Scan.name_char c = true) seg →
  Path.extname_loop (seg ++ rest) i (Path.Scan (-1) sp e ms pds) =
  Path.extname_loop rest (i - Z.of_nat (length seg)) (Path.Scan (-1) sp e ms pds).
Proof.
  intros He Hseg. revert i. induction Hseg as [|c seg Hc _ IH]; intros i.
  { simpl. f_equal. lia. }
  destruct (name_char_step c Hc) as [Hslash Hdot].
  simpl. rewrite Hslash, Hdot. simpl.
  apply Z.eqb_neq in He. rewrite He. simpl. rewrite IH. f_equal. lia.
Qed.

(** The first name character sets [end]. *)
Lemma loop_names_first seg rest i sp pds :
  seg ≠ [] →
  i + 1 ≠ -1 →
  Forall (fun c => Scan.name_char c = true) seg →
  Path.extname_loop (seg ++ rest) i (Path.Scan (-1) sp (-1) true pds) =
  Path.extname_loop rest (i - Z.of_nat (length seg)) (Path.Scan (-1) sp (i + 1) false pds).
Proof.
  intros Hne Hi Hseg. destruct Hseg as [|c seg Hc Hseg]; [done|].
  destruct (name_char_step c Hc) as [Hslash Hdot].
  simpl. rewrite Hslash, Hdot. simpl.
  rewrite (loop_names_before_dot seg rest (i - 1) sp (i + 1) false pds Hi Hseg).
  f_equal. lia.
Qed.

(** Name characters scanned after the dot record that the dot is not the
    first character. *)
Lemma loop_names_after_dot seg rest i sd sp e ms pds :
  seg ≠ [] →
  sd ≠ -1 →
  e ≠ -1 →
  Forall (fun c => Scan.name_char c = true) seg →
  Path.extname_loop (seg ++ rest) i (Path.Scan sd sp e ms pds) =
  Path.extname_loop rest (i - Z.of_nat (length seg)) (Path.Scan sd sp e ms (-1)).
Proof.
  intros Hne Hsd He Hseg. apply Z.eqb_neq in Hsd, He.
  assert (∀ seg, Forall (fun c => Scan.name_char c = true) seg → ∀ i,
            Path.extname_loop (seg ++ rest) i (Path.Scan sd sp e ms (-1)) =
            Path.extname_loop rest (i - Z.of_nat (length seg))
              (Path.Scan sd sp e ms (-1))) as Hrest.
  { clear seg Hne Hseg i. intros seg Hseg.
    induction Hseg as [|c seg Hc _ IH]; intros i.
    { simpl. f_equal. lia. }
    destruct (name_char_step c Hc) as [Hslash Hdot].
    simpl. rewrite Hslash, Hdot. simpl. rewrite He. simpl. rewrite Hsd. simpl.
    rewrite IH. f_equal. lia. }
  destruct Hseg as [|c seg Hc Hseg]; [done|].
  destruct (name_char_step c Hc) as [Hslash Hdot].
  simpl. rewrite Hslash, Hdot. simpl. rewrite He. simpl. rewrite Hsd. simpl.
  rewrite Hrest by done. f_equal. lia.
Qed.

Lemma loop_dot rest i sp e ms pds :
  Path.extname_loop (Scan.dot :: rest) i (Path.Scan (-1) sp e ms pds) =
  Path.extname_loop rest (i - 1)
    (Path.Scan i sp (if e =? -1 then i + 1 else e) (if e =? -1 then false else ms) pds).
Proof. simpl. by destruct (e =? -1). Qed.

(** A name without a dot has no extension. *)
Lemma extname_of_name (name : list ascii) :
  Forall (fun c => Scan.name_char c = true) name →
  Path.extname (Str.of_chars name) = ""%string.
Proof.
  intros Hname. unfold Path.extname. rewrite chars_of_chars.
  destruct name as [|c name]; [done|].
  rewrite <- (app_nil_r (rev (c :: name))). unfold Path.scan_init.
  rewrite loop_names_first.
  - done.
  - intros Hnil. apply (f_equal (@length ascii)) in Hnil.
    rewrite length_rev in Hnil. done.
  - simpl length. lia.
  - by apply Forall_rev.
Qed.

(** A name, a dot and more name characters: the extension is the dot and
    what follows it. *)
Lemma extname_of_name_dot (name r : list ascii) :
  name ≠ [] →
  Forall (fun c => Scan.name_char c = true) name →
  Forall (fun c => Scan.name_char c = true) r →
  Path.extname (Str.of_chars (name ++ Scan.dot :: r)) = Str.of_chars (Scan.dot :: r).
Proof.
  intros Hne Hname Hr. unfold Path.extname. rewrite chars_of_chars.
  assert (rev name ≠ []) as Hrev.
  { intros Hnil. apply (f_equal (@length ascii)) in Hnil.
    rewrite length_rev in Hnil. by destruct name. }
  assert (length name ≠ 0%nat) as Hlen by (by destruct name).
  replace (rev (name ++ Scan.dot :: r))
    with (rev r ++ Scan.dot :: (rev name ++ []))
    by (rewrite rev_app_distr, app_nil_r; simpl; by rewrite <- app_assoc).
  rewrite length_app. simpl length.
  assert (Path.extname_loop (rev r ++ Scan.dot :: rev name ++ [])
            (Z.of_nat (length name + S (length r)) - 1) Path.scan_init =
          Path.Scan (Z.of_nat (length name)) 0
            (Z.of_nat (length name + S (length r))) false (-1)) as ->.
  { destruct r as [|c r].
    - simpl rev. simpl app. unfold Path.scan_init. rewrite loop_dot. simpl.
      rewrite loop_names_after_dot by (done || lia || by apply Forall_rev).
      simpl. f_equal; lia.
    - unfold Path.scan_init. rewrite loop_names_first.
      + rewrite loop_dot.
        replace (_ =? -1) with false by (symmetry; apply Z.eqb_neq; lia).
        rewrite loop_names_after_dot
          by (done || (rewrite ?length_rev; simpl; lia) || by apply Forall_rev).
        rewrite !length_rev. cbn [Path.extname_loop]. simpl length.
        f_equal; lia.
      + intros Hnil. apply (f_equal (@length ascii)) in Hnil.
        rewrite length_rev in Hnil. done.
      + lia.
      + by apply Forall_rev. }
  cbn [Path.startDot Path.end_ Path.preDotState Path.startPart].
  replace (Z.of_nat (length name) =? -1) with false
    by (symmetry; apply Z.eqb_neq; lia).
  replace (Z.of_nat (length name + S (length r)) =? -1) with false
    by (symmetry; apply Z.eqb_neq; lia).
  change (-1 =? 0) with false. change (-1 =? 1) with false. cbn [orb andb].
  f_equal. unfold Path.slice.
  rewrite Nat2Z.id, drop_app_length.
  replace (Z.to_nat _) with (length (Scan.dot :: r)) by (simpl length; lia).
  apply firstn_all.
Qed.

End Extname.

Lemma digit_name_char (c : ascii) :
  Scan.is_digit c = true → Scan.name_char c = true.
Proof. by destruct c as [[] [] [] [] [] [] [] []]. Qed.

Lemma string_of_uint_digits (d : Decimal.uint) :
  Forall (fun c => Scan.is_digit c = true) (Str.chars (NilEmpty.string_of_uint d)).
Proof. induction d; simpl; by constructor. Qed.

(** The decimal form of a number consists of digits. *)
Lemma decimal_digits (n : N) :
  Forall (fun c => Scan.is_digit c = true) (Str.chars (Str.decimal n)).
Proof.
  unfold Str.decimal, NilZero.string_of_uint.
  destruct (N.to_uint n); try apply string_of_uint_digits.
  by repeat constructor.
Qed.

(** ... and determines the number. *)
Lemma decimal_inj (n m : N) : Str.decimal n = Str.decimal m → n = m.
Proof.
  unfold Str.decimal. intros H.
  apply DecimalN.Unsigned.to_uint_inj.
  assert (∀ k, N.to_uint k ≠ Decimal.Nil) as Hnn.
  { intros [|p]; [done|]. apply DecimalPos.Unsigned.to_uint_nonnil. }
  apply (f_equal NilZero.uint_of_string) in H.
  rewrite !NilZero.usu in H by apply Hnn. by injection H.
Qed.

Lemma chars_inj (s t : string) : Str.chars s = Str.chars t → s = t.
Proof. intros H. by rewrite <- (of_chars_chars s), <- (of_chars_chars t), H. Qed.

(** Two lists that start with digits and go on with something that does
    not start with a digit are equal only part by part. *)
Lemma split_digits (l1 l2 t1 t2 : list ascii) :
  Forall (fun c => Scan.is_digit c = true) l1 →
  Forall (fun c => Scan.is_digit c = true) l2 →
  (∀ c, head t1 = Some c → Scan.is_digit c = false) →
  (∀ c, head t2 = Some c → Scan.is_digit c = false) →
  l1 ++ t1 = l2 ++ t2 →
  l1 = l2 ∧ t1 = t2.
Proof.
  intros H1. revert l2. induction H1 as [|a l1 Ha _ IH]; intros l2 H2 Ht1 Ht2 Heq.
  - destruct H2 as [|b l2 Hb _]; [done|].
    simpl in Heq. rewrite Heq in Ht1. specialize (Ht1 b eq_refl). congruence.
  - destruct H2 as [|b l2 Hb H2].
    + simpl in Heq. rewrite <- Heq in Ht2. specialize (Ht2 a eq_refl). congruence.
    + simpl in Heq. injection Heq as -> Heq.
      destruct (IH l2 H2 Ht1 Ht2 Heq) as [-> ->]. done.
Qed.

Lemma storage_filename_chars env file :
  Str.chars (Multer.storage_filename env file) =
  Str.chars "image-" ++ Str.chars (Str.decimal (filename_now env)) ++
  Str.chars "-" ++ Str.chars (Str.decimal (filename_random env)) ++
  Str.chars (Path.extname (originalname file)).
Proof.
  unfold Multer.storage_filename. rewrite !chars_app. by rewrite <- !app_assoc.
Qed.

Lemma extname_head_not_digit (p : string) (c : ascii) :
  head (Str.chars (Path.extname p)) = Some c → Scan.is_digit c = false.
Proof.
  destruct (extname_shape p) as [->|(r & -> & _)]; [done|].
  by intros [= <-].
Qed.

(** X18: the name under which an upload is stored has the extension of the
    uploaded file's name, as [path.extname] finds it in both. *)
Theorem X18_stored_name_keeps_the_extension env file :
  Path.extname (Multer.storage_filename env file) = Path.extname (originalname file).
Proof.
  rewrite <- (of_chars_chars (Multer.storage_filename env file)).
  rewrite storage_filename_chars.
  set (stem := Str.chars "image-" ++ Str.chars (Str.decimal (filename_now env)) ++
               Str.chars "-" ++ Str.chars (Str.decimal (filename_random env))).
  assert (Forall (fun c => Scan.name_char c = true) stem) as Hstem.
  { unfold stem. repeat apply Forall_app_2; try by repeat constructor.
    - eapply Forall_impl; [apply decimal_digits | apply digit_name_char].
    - eapply Forall_impl; [apply decimal_digits | apply digit_name_char]. }
  replace (Str.chars "image-" ++ _) with
    (stem ++ Str.chars (Path.extname (originalname file)))
    by (unfold stem; by rewrite <- !app_assoc).
  destruct (extname_shape (originalname file)) as [Hnone|(r & Hr & Hnames)].
  - rewrite Hnone. simpl Str.chars. rewrite app_nil_r. by apply extname_of_name.
  - rewrite Hr. rewrite extname_of_name_dot; [|done..].
    by rewrite <- Hr, of_chars_chars.
Qed.

(** X19: two uploads are stored under the same name only if the clock and
    the random number were the same for both and their names have the same
    extension. *)
Theorem X19_stored_names_differ env1 env2 file1 file2 :
  Multer.storage_filename env1 file1 = Multer.storage_filename env2 file2 →
  filename_now env1 = filename_now env2 ∧
  filename_random env1 = filename_random env2 ∧
  Path.extname (originalname file1) = Path.extname (originalname file2).
Proof.
  intros H. apply (f_equal Str.chars) in H.
  rewrite !storage_filename_chars in H.
  apply app_inv_head in H.
  apply split_digits in H as [Hnow H];
    [| apply decimal_digits | apply decimal_digits
     | by intros c [= <-] | by intros c [= <-]].
  simpl in H. injection H as H.
  apply split_digits in H as [Hrandom Hext];
    [| apply decimal_digits | apply decimal_digits
     | apply extname_head_not_digit | apply extname_head_not_digit].
  split_and!.
  - by apply decimal_inj, chars_inj.
  - by apply decimal_inj, chars_inj.
  - by apply chars_inj.
Qed.

Lemma X19_stored_names_differ_witness :
  Multer.storage_filename (Sample.env 1000 7 (Ok "a")) (Sample.png 500) =
    Multer.storage_filename (Sample.env 1000 8 (Ok "b")) (Sample.png 600) ∧
  filename_now (Sample.env 1000 7 (Ok "a")) = filename_now (Sample.env 1000 8 (Ok "b")) ∧
  filename_random (Sample.env 1000 7 (Ok "a")) =
    filename_random (Sample.env 1000 8 (Ok "b")) ∧
  Path.extname (originalname (Sample.png 500)) =
    Path.extname (originalname (Sample.png 600)).
Proof.
  split; [reflexivity|].
  apply (X19_stored_names_differ (Sample.env 1000 7 (Ok "a"))
           (Sample.env 1000 8 (Ok "b")) (Sample.png 500) (Sample.png 600)).
  reflexivity.
Defined.

(** ** Letter case of the file name *)

Lemma is_slash_lower (c : ascii) : Path.is_slash (Str.lower_char c) = Path.is_slash c.
Proof. by destruct c as [[] [] [] [] [] [] [] []]. Qed.

Lemma is_dot_lower (c : ascii) : Regex.is_dot (Str.lower_char c) = Regex.is_dot c.
Proof. by destruct c as [[] [] [] [] [] [] [] []]. Qed.

(** The scan looks at slashes and dots only. *)
Lemma extname_loop_lower (rev_path : list ascii) :
  ∀ i st, Path.extname_loop (Str.lower rev_path) i st = Path.extname_loop rev_path i st.
Proof.
  induction rev_path as [|c rest IH]; intros i st; simpl; [done|].
  rewrite is_slash_lower, is_dot_lower.
  destruct (Path.is_slash c); [by destruct (negb _)|]. apply IH.
Qed.

Lemma extname_lower (name : string) :
  Path.extname (Str.toLowerCase name) = Str.toLowerCase (Path.extname name).
Proof.
  unfold Path.extname. cbv zeta.
  assert (Str.chars (Str.toLowerCase name) = Str.lower (Str.chars name)) as ->
    by apply chars_of_chars.
  assert (rev (Str.lower (Str.chars name)) = Str.lower (rev (Str.chars name))) as ->
    by (unfold Str.lower; by rewrite map_rev).
  assert (length (Str.lower (Str.chars name)) = length (Str.chars name)) as ->
    by apply length_map.
  rewrite extname_loop_lower.
  destruct (_ || _); [done|].
  unfold Str.toLowerCase. rewrite chars_of_chars. f_equal.
  unfold Path.slice, Str.lower. by rewrite <- firstn_map, <- skipn_map.
Qed.

Lemma toLowerCase_idem (s : string) :
  Str.toLowerCase (Str.toLowerCase s) = Str.toLowerCase s.
Proof. unfold Str.toLowerCase. by rewrite chars_of_chars, lower_idem. Qed.

(** X20: the upload filter does not look at the letter case of the file
    name: a part is admitted under its name exactly when it is admitted
    under the lower-case form of that name. *)
Theorem X20_filter_ignores_case_of_the_name (name type : string) (bytes : N) :
  Multer.fileFilter (mkFilePart (Str.toLowerCase name) type bytes) =
  Multer.fileFilter (mkFilePart name type bytes).
Proof.
  unfold Multer.fileFilter. simpl. by rewrite extname_lower, toLowerCase_idem.
Qed.

(** ** Uploads and deletes as the list route sees them *)

(** The list route reads the collection only. *)
Lemma get_records_collection search w1 w2 :
  collection w1 = collection w2 → get_records search w1 = get_records search w2.
Proof.
  intros H. unfold get_records, RecordModel.find_sorted, RecordModel.documents.
  by rewrite H.
Qed.

Lemma count_all w :
  length (listed (get_records None w)) = length (map_to_list (collection w)).
Proof.
  rewrite get_records_all. simpl. apply Permutation_length, sort_perm.
Qed.

(** X22: an upload that is answered with 201 makes the unfiltered list one
    record longer, and a delete that is answered with 200 makes it one
    record shorter. *)
Theorem X22_list_grows_and_shrinks_by_one env req id w :
  (status (post_upload env req w).2 = 201 →
   length (listed (get_records None (post_upload env req w).1)) =
   S (length (listed (get_records None w)))) ∧
  (status (delete_record id w).2 = 200 →
   S (length (listed (get_records None (delete_record id w).1))) =
   length (listed (get_records None w))).
Proof.
  rewrite !count_all. split.
  - intros H.
    destruct (post_upload_cases env req w) as [(_ & Hfresh & doc & ->)|[? _]]; [|done].
    by rewrite (map_to_list_insert _ _ _ Hfresh).
  - destruct (RecordModel.castObjectId id) as [oid|] eqn:Hid;
      [|by rewrite (delete_record_malformed id w Hid)].
    destruct (collection w !! oid) as [doc|] eqn:Hdoc;
      [|by rewrite (delete_record_absent id w oid Hid Hdoc)].
    rewrite (delete_record_present id w oid doc Hid Hdoc). simpl. intros _.
    by rewrite <- (map_to_list_delete _ _ _ Hdoc).
Qed.

Lemma X22_list_grows_and_shrinks_by_one_witness :
  (status (post_upload (Sample.env 2000 9 (Ok "Later"))
             (Sample.upload (Sample.png 600) None) Sample.one_record).2 = 201 ∧
   length (listed (get_records None
                     (post_upload (Sample.env 2000 9 (Ok "Later"))
                        (Sample.upload (Sample.png 600) None) Sample.one_record).1)) =
   S (length (listed (get_records None Sample.one_record)))) ∧
  (status (delete_record "000000000000000000000007" Sample.one_record).2 = 200 ∧
   S (length (listed (get_records None
                        (delete_record "000000000000000000000007"
                           Sample.one_record).1))) =
   length (listed (get_records None Sample.one_record))).
Proof.
  split.
  - split; [reflexivity|].
    apply (proj1 (X22_list_grows_and_shrinks_by_one (Sample.env 2000 9 (Ok "Later"))
                    (Sample.upload (Sample.png 600) None)
                    "000000000000000000000007" Sample.one_record)).
    reflexivity.
  - split; [reflexivity|].
    apply (proj2 (X22_list_grows_and_shrinks_by_one (Sample.env 2000 9 (Ok "Later"))
                    (Sample.upload (Sample.png 600) None)
                    "000000000000000000000007" Sample.one_record)).
    reflexivity.
Defined.

(** ** The list route over any store *)

Lemma sort_createdAt_desc_sorts : Store.sorts RecordModel.sort_createdAt_desc.
Proof. intros docs. split; [apply sort_perm | apply sort_descending]. Qed.


(** Where [get_records] gives an answer, the route gives the same answer
    over every store whose engine knows the fragment and that sorts as
    [RecordModel.sort_createdAt_desc] does. *)
Lemma get_records_on_agrees engine search w r :
  Store.knows_fragment engine →
  get_records search w = Some r →
  get_records_on engine RecordModel.sort_createdAt_desc search w = r.
Proof.
  intros Hengine. unfold get_records, get_records_on.
  destruct search as [search|]; [|by intros [= <-]].
  destruct (Str.is_empty search); [by intros [= <-]|].
  unfold RecordModel.find_sorted, Store.find_sorted.
  specialize (Hengine search).
  destruct (Regex.compile search) as [alts| |]; [| |done].
  - destruct Hengine as (matches & -> & Hmatches). intros [= <-].
    by rewrite (filter_ext (fun d : Doc => matches (extractedText d.2))
                  (fun d : Doc => Regex.test (String.eqb "i" "i") alts (extractedText d.2))
                  (fun d => Hmatches (extractedText d.2))).
  - rewrite Hengine. by intros [= <-].
Qed.

Lemma filter_submseteq {A : Type} (keep : A → bool) (l : list A) :
  List.filter keep l ⊆+ l.
Proof. apply sublist_submseteq, filter_sublist. Qed.

Lemma filter_none {A : Type} (l : list A) : List.filter (fun _ => false) l = [].
Proof. induction l as [|a l IH]; [done | exact IH]. Qed.

(** The records of a list answer, in terms of the collection. *)
Lemma listed_on engine order search w :
  Store.sorts order →
  ∃ keep : Doc → bool,
    listed_of (get_records_on engine order search w) ≡ₚ
      List.filter keep (map_to_list (collection w)) ∧
    (search = None → ∀ d, keep d = true).
Proof.
  intros Horder. unfold get_records_on, Store.find_sorted, RecordModel.documents.
  assert (order (map_to_list (collection w)) ≡ₚ
          List.filter (fun _ : Doc => true) (map_to_list (collection w))) as Hall.
  { rewrite filter_all by done. apply Horder. }
  destruct search as [search|]; [destruct (Str.is_empty search)|].
  - by exists (fun _ => true).
  - destruct (engine search "i"%string) as [matches|].
    + exists (fun d => matches (extractedText d.2)). split; [apply Horder|done].
    + exists (fun _ => false). split; [|done].
      by rewrite filter_none.
  - by exists (fun _ => true).
Qed.

Lemma listed_on_all engine order w :
  Store.sorts order →
  listed_of (get_records_on engine order None w) ≡ₚ map_to_list (collection w).
Proof. intros Horder. apply Horder. Qed.

Lemma listed_on_descending engine order search w :
  Store.sorts order →
  Spec.descending (listed_of (get_records_on engine order search w)).
Proof.
  intros Horder. unfold get_records_on.
  destruct (Store.find_sorted engine order _ w) as [found|error] eqn:Hfind;
    [|constructor].
  simpl. unfold Store.find_sorted in Hfind.
  destruct search as [search|]; [destruct (Str.is_empty search)|].
  - injection Hfind as <-. apply Horder.
  - destruct (engine search "i"%string); [|done]. injection Hfind as <-. apply Horder.
  - injection Hfind as <-. apply Horder.
Qed.

(** X11: whatever the search string, the records of the answer to a search
    are records of the unfiltered list, none more often than there, and
    they come newest first; a search never shows a record the full list
    does not have.  This holds for every engine and for every order the
    store gives to records of equal [createdAt], in either query. *)
Theorem X11_search_shows_only_listed_records engine order order' search w :
  Store.sorts order →
  Store.sorts order' →
  listed_of (get_records_on engine order search w) ⊆+
    listed_of (get_records_on engine order' None w) ∧
  Spec.descending (listed_of (get_records_on engine order search w)).
Proof.
  intros Horder Horder'. split; [|by apply listed_on_descending].
  destruct (listed_on engine order search w Horder) as (keep & -> & _).
  rewrite (listed_on_all engine order' w Horder').
  apply filter_submseteq.
Qed.

Lemma X11_search_shows_only_listed_records_witness :
  listed_of (get_records_on Sample.engine RecordModel.sort_createdAt_desc
               (Some "ell"%string) Sample.same_millisecond) ⊆+
    listed_of (get_records_on Sample.engine RecordModel.sort_createdAt_desc
                 None Sample.same_millisecond) ∧
  Spec.descending
    (listed_of (get_records_on Sample.engine RecordModel.sort_createdAt_desc
                  (Some "ell"%string) Sample.same_millisecond)).
Proof.
  apply (X11_search_shows_only_listed_records Sample.engine
           RecordModel.sort_createdAt_desc RecordModel.sort_createdAt_desc
           (Some "ell"%string) Sample.same_millisecond);
    apply sort_createdAt_desc_sorts.
Defined.

(** X21: an upload that is not answered with 201 is invisible to the list
    route: every search is answered with the same status and the same
    records as before the upload, whatever the search string and the
    store's engine, and up to the order the store gives to records of equal
    [createdAt]. *)
Theorem X21_failed_upload_is_not_listed env req w engine order order' search :
  Store.sorts order →
  Store.sorts order' →
  status (post_upload env req w).2 ≠ 201 →
  status (get_records_on engine order' search (post_upload env req w).1) =
    status (get_records_on engine order search w) ∧
  listed_of (get_records_on engine order' search (post_upload env req w).1) ≡ₚ
    listed_of (get_records_on engine order search w).
Proof.
  intros Horder Horder' Hfail.
  assert (collection (post_upload env req w).1 = collection w) as Hcol
    by (by destruct (post_upload_cases env req w) as [[? _]|(_ & ? & _)]).
  unfold get_records_on, Store.find_sorted, RecordModel.documents. rewrite Hcol.
  assert (∀ docs, order' docs ≡ₚ order docs) as Hsame.
  { intros docs. etrans; [apply Horder'|]. symmetry. apply Horder. }
  destruct search as [search|]; [destruct (Str.is_empty search)|].
  - split; [done|]. apply Hsame.
  - destruct (engine search "i"%string); [|done].
    split; [done|]. apply Hsame.
  - split; [done|]. apply Hsame.
Qed.

Lemma X21_failed_upload_is_not_listed_witness :
  status Sample.oversized_exe.2 ≠ 201 ∧
  status (get_records_on Sample.engine RecordModel.sort_createdAt_desc
            (Some "hello"%string) Sample.oversized_exe.1) =
    status (get_records_on Sample.engine RecordModel.sort_createdAt_desc
              (Some "hello"%string) Sample.empty_world) ∧
  listed_of (get_records_on Sample.engine RecordModel.sort_createdAt_desc
               (Some "hello"%string) Sample.oversized_exe.1) ≡ₚ
    listed_of (get_records_on Sample.engine RecordModel.sort_createdAt_desc
                 (Some "hello"%string) Sample.empty_world).
Proof.
  split; [by vm_compute|].
  apply (X21_failed_upload_is_not_listed (Sample.env 1000 7 (Ok "Hello"))
           (Sample.upload Sample.big_exe None) Sample.empty_world Sample.engine
           RecordModel.sort_createdAt_desc RecordModel.sort_createdAt_desc).
  - apply sort_createdAt_desc_sorts.
  - apply sort_createdAt_desc_sorts.
  - by vm_compute.
Defined.




